(** * Music downloader bot: a shallow embedding of [main.py]

    The bot receives chat commands and free text, resolves a video link or a
    catalog (Spotify) track link, downloads the audio with yt-dlp, optionally
    writes ID3 tags, sends the file to the chat and removes it.

    Text is [string] (one [ascii] per byte of the UTF-8 text); integers are
    [Z]; Python dictionaries are [gmap string pyval]; the local download
    directory is a [gmap] from path to file.  Handlers are programs in a
    state-and-exception monad over the [World]; every external service
    (Telegram, yt-dlp, Spotify, eyed3, HTTP) answers through an [Env] of
    oracles indexed by the number of external calls made so far, so a theorem
    quantified over [Env] covers every behaviour of the services.  The [Env]
    also holds what the interpreter and the libraries decide on the handlers'
    own arguments: which texts [int] reads, which dates eyed3 accepts, and
    the wording of the exceptions they raise.  A handler takes what it reads
    of [update] and [context]: the message text or the command arguments; its
    replies go to the one chat of the world.  An update without
    [update.message] never gets that far: see [route]. *)

From Stdlib Require Import ZArith Lia Bool Ascii DecimalString.
From Stdlib Require String.
From stdpp Require Import gmap strings list.

Local Open Scope Z_scope.

(** ** Python string operations *)

(** [p in s] for strings: some suffix of [s] starts with [p]. *)
Fixpoint contains (p s : string) : bool :=
  String.prefix p s ||
  match s with
  | EmptyString => false
  | String _ s' => contains p s'
  end.

(** [s.endswith(suf)]: some suffix of [s] is [suf]. *)
Fixpoint endswith (s suf : string) : bool :=
  String.eqb s suf ||
  match s with
  | EmptyString => false
  | String _ s' => endswith s' suf
  end.

(** [c] occurs in [s]. *)
Fixpoint occurs (c : ascii) (s : string) : bool :=
  match s with
  | EmptyString => false
  | String d s' => Ascii.eqb c d || occurs c s'
  end.

(** The whitespace characters of one byte: tab, line feed, vertical tab,
    form feed, carriage return, the four separators 0x1c..0x1f and the
    space. *)
Definition is_space (c : ascii) : bool :=
  let n := nat_of_ascii c in
  ((9 <=? n)%nat && (n <=? 13)%nat) || ((28 <=? n)%nat && (n <=? 32)%nat).

(** The whitespace characters of two bytes in UTF-8: U+0085 and U+00A0. *)
Definition two_byte_space (b1 b2 : nat) : bool :=
  ((b1 =? 194) && ((b2 =? 133) || (b2 =? 160)))%nat.

(** Those of three bytes: U+1680, U+2000..U+200A, U+2028, U+2029, U+202F,
    U+205F and U+3000. *)
Definition three_byte_space (b1 b2 b3 : nat) : bool :=
  (((b1 =? 225) && (b2 =? 154) && (b3 =? 128))
   || ((b1 =? 226) && (b2 =? 128)
       && (((128 <=? b3) && (b3 <=? 138)) || (b3 =? 168) || (b3 =? 169) || (b3 =? 175)))
   || ((b1 =? 226) && (b2 =? 129) && (b3 =? 159))
   || ((b1 =? 227) && (b2 =? 128) && (b3 =? 128)))%nat.

(** The number of bytes of the whitespace character that starts [s]; [0]
    when [s] does not start with whitespace. These are the characters
    [str.split()] cuts at. *)
Definition space_width (s : string) : nat :=
  match s with
  | EmptyString => 0
  | String c1 r1 =>
      if is_space c1 then 1
      else
        match r1 with
        | EmptyString => 0
        | String c2 r2 =>
            if two_byte_space (nat_of_ascii c1) (nat_of_ascii c2) then 2
            else
              match r2 with
              | EmptyString => 0
              | String c3 _ =>
                  if three_byte_space (nat_of_ascii c1) (nat_of_ascii c2) (nat_of_ascii c3)
                  then 3
                  else 0
              end
        end
  end%nat.

(** No whitespace character starts anywhere in [s]. *)
Fixpoint no_whitespace (s : string) : bool :=
  match s with
  | EmptyString => true
  | String _ s' => (space_width s =? 0)%nat && no_whitespace s'
  end.

(** A pattern of ASCII characters other than whitespace, as the link markers
    are. *)
Fixpoint plain (p : string) : bool :=
  match p with
  | EmptyString => true
  | String c p' => negb (is_space c) && (nat_of_ascii c <? 128)%nat && plain p'
  end.

(** A byte no plain pattern holds: one-byte whitespace, or a byte of a
    character of several bytes. *)
Definition is_blank (c : ascii) : bool := is_space c || (128 <=? nat_of_ascii c)%nat.

(** The first [n] bytes of [s], as far as it has them, are blank. *)
Fixpoint blank_first (n : nat) (s : string) : bool :=
  match n, s with
  | S k, String c s' => is_blank c && blank_first k s'
  | _, _ => true
  end.

(** U+00A0, the no-break space, in UTF-8. *)
Definition no_break_space : string := String (ascii_of_nat 194) (String (ascii_of_nat 160) "").

(** U+3000, the ideographic space, in UTF-8. *)
Definition ideographic_space : string :=
  String (ascii_of_nat 227) (String (ascii_of_nat 128) (String (ascii_of_nat 128) "")).

Definition emit (cur : string) : list string :=
  match cur with
  | EmptyString => []
  | _ => [cur]
  end.

(** [s.split()]: maximal runs of non-whitespace, in order; [cur] is the run
    being read, [skip] counts the bytes of a whitespace character still to
    pass over. *)
Fixpoint split_ws_go (skip : nat) (cur s : string) : list string :=
  match s with
  | EmptyString => emit cur
  | String c s' =>
      match skip with
      | S k => split_ws_go k cur s'
      | O =>
          match space_width s with
          | O => split_ws_go 0 (cur +:+ String c "") s'
          | S k => emit cur ++ split_ws_go k "" s'
          end
      end
  end.

Definition split_ws (s : string) : list string := split_ws_go 0 "" s.

(** [s.split(sep)] for a non-empty [sep]: cut at the leftmost occurrences of
    [sep], which do not overlap; [skip] counts the characters of a matched
    separator still to pass over, [cur] is the piece being read. *)
Fixpoint split_sep_go (sep : string) (skip : nat) (cur s : string) : list string :=
  match s with
  | EmptyString => [cur]
  | String c s' =>
      match skip with
      | S k => split_sep_go sep k cur s'
      | O =>
          if String.prefix sep s
          then cur :: split_sep_go sep (String.length sep - 1) "" s'
          else split_sep_go sep 0 (cur +:+ String c "") s'
      end
  end.

Definition split_sep (sep s : string) : list string := split_sep_go sep 0 "" s.

(** No occurrence of [sep] starts inside [a] when [a] is followed by [t]. *)
Fixpoint no_match_in (sep a t : string) : bool :=
  match a with
  | EmptyString => true
  | String _ a' => negb (String.prefix sep (a +:+ t)) && no_match_in sep a' t
  end.

Definition track_marker : string := "/track/".

(** Line 196 of [get_spotify_info] without its guard:
    [url.split("/track/")[1].split("?")[0]]; [None] stands for
    [IndexError]. *)
Definition track_id_of (url : string) : option string :=
  match split_sep track_marker url !! 1%nat with
  | Some rest => split_sep "?" rest !! 0%nat
  | None => None
  end.

(** The track identifier of a catalog URL, lines 195-196: the expression
    above under the guard ["/track/" in url]; [None] stands for the guard's
    [else] branch, where no identifier is extracted. *)
Definition extract_track_id (url : string) : option string :=
  if contains track_marker url then track_id_of url else None.

(** The query-stripping step alone, [s.split("?")[0]]. *)
Definition strip_query (s : string) : option string := split_sep "?" s !! 0%nat.

(** ** Python values and integer text *)

(** The values the handlers put in a dictionary or format into a message. *)
Inductive pyval :=
  | VNone
  | VStr (s : string)
  | VInt (n : Z).

(** [str(n)] for an integer. *)
Definition py_str_int (n : Z) : string := NilZero.string_of_int (Z.to_int n).

(** [str(v)], as an f-string renders a value. *)
Definition py_str (v : pyval) : string :=
  match v with
  | VNone => "None"
  | VStr s => s
  | VInt n => py_str_int n
  end.

(** Truth value of [v] in an [if]. *)
Definition truthy (v : pyval) : bool :=
  match v with
  | VNone => false
  | VStr s => negb (String.eqb s "")
  | VInt n => negb (n =? 0)
  end.

Fixpoint zeros (k : nat) : string :=
  match k with
  | O => ""
  | S k' => String "0" (zeros k')
  end.

(** [s.zfill(width)] for a string of digits. *)
Definition zfill (width : nat) (s : string) : string :=
  zeros (width - String.length s) +:+ s.

(** The format specification [:02d]: sign first, then the digits padded with
    zeros so that the whole field has at least two characters. *)
Definition format_02d (n : Z) : string :=
  if n <? 0 then "-" +:+ zfill 1 (py_str_int (Z.abs n))
  else zfill 2 (py_str_int n).

(** Line 209: [f"{duration_ms//60000}:{(duration_ms//1000)%60:02d}"]; [//] and
    [%] round towards minus infinity, as [Z.div] and [Z.modulo] do for a
    positive divisor. *)
Definition format_duration (duration_ms : Z) : string :=
  py_str_int (duration_ms / 60000) +:+ ":" +:+ format_02d ((duration_ms / 1000) mod 60).

(** The seconds field as the specification words it: two decimal digits. *)
Definition digit_char (d : Z) : ascii := ascii_of_nat (48 + Z.to_nat d).

Definition two_digits (s : Z) : string :=
  String (digit_char (s / 10)) (String (digit_char (s mod 10)) "").

Definition is_digit (c : ascii) : bool :=
  let n := nat_of_ascii c in (48 <=? n)%nat && (n <=? 57)%nat.

Fixpoint all_digits (s : string) : bool :=
  match s with
  | EmptyString => true
  | String c s' => is_digit c && all_digits s'
  end.

(** The number a string of decimal digits denotes, continuing from [acc]. *)
Fixpoint decimal_value (acc : Z) (s : string) : Z :=
  match s with
  | EmptyString => acc
  | String c s' => decimal_value (10 * acc + (Z.of_nat (nat_of_ascii c) - 48)) s'
  end.

(** ** The world of one chat *)

(** An exception is kept as its message, the [str(e)] the handlers print. *)
Definition exn := string.

Inductive Result (A : Type) :=
  | Ok (a : A)
  | Raise (e : exn).
Arguments Ok {A} a.
Arguments Raise {A} e.

(** An ID3 tag as eyed3 holds it in memory; a field is [None] when the tag
    has no frame for it. A picture is kept with its type, bytes, MIME type
    and description. *)
Record Image := mkImage {
  img_type : Z;
  img_data : string;
  img_mime : string;
  img_description : string
}.

Record Tag := mkTag {
  tag_title : option string;
  tag_artist : option string;
  tag_album : option string;
  tag_album_artist : option string;
  tag_recording_date : option pyval;
  tag_track_num : option Z;
  tag_images : list Image
}.

(** What the text setter of eyed3 keeps of a value it accepts: a string
    that is not empty; [None] and the empty string remove the frame. *)
Definition kept_text (v : pyval) : option string :=
  match v with
  | VStr s => if String.eqb s "" then None else Some s
  | _ => None
  end.

Definition has_description (description : string) (i : Image) : bool :=
  String.eqb (img_description i) description.

(** What [initTag()] creates. *)
Definition empty_tag : Tag := mkTag None None None None None None [].

Definition FRONT_COVER : Z := 3.

(** A file of the download directory: its audio bytes and the tag saved in
    it. *)
Record File := mkFile {
  f_audio : string;
  f_tag : option Tag
}.

Inductive Message :=
  | MText (text : string)
  | MPhoto (photo caption : string)
  | MAudio (audio : File) (title : string).

(** What the run did, in order. The Telegram events carry the identifier of
    the message they created or edited and are recorded when the call got
    through; the calls to the other services are recorded when made. *)
Inductive Event :=
  | EvReply (id : nat) (text : string)
  | EvEdit (id : nat) (text : string)
  | EvPhoto (id : nat) (photo caption : string)
  | EvAudio (id : nat) (path : string) (title : string)
  | EvExtract (url : option string) (download : bool)
  | EvWrite (path : string)
  | EvRemove (path : string)
  | EvTrack (track_id : string)
  | EvLoad (path : string)
  | EvHttpGet (url : string)
  | EvTagSave (path : string)
  | EvLogError (msg : string).

Record World := mkWorld {
  files : gmap string File;
  chat : list Message;
  log : list Event;
  tick : nat
}.

(** ** The answers of the external services *)

Record YtEntry := mkYtEntry {
  e_webpage_url : option string
}.

(** The dictionary [extract_info] returns; an absent key is [None]. *)
Record YtInfo := mkYtInfo {
  yt_title : option string;
  yt_entries : option (list YtEntry)
}.

(** A finished [extract_info] call: the dictionary, and the files the
    download left in the download directory. *)
Record YtAnswer := mkYtAnswer {
  yt_info : YtInfo;
  yt_written : list (string * File)
}.

(** The track object of the catalog provider. *)
Record TrackInfo := mkTrackInfo {
  tr_name : string;
  tr_artists : list string;
  tr_album_name : string;
  tr_album_artists : list string;
  tr_release_date : string;
  tr_images : list string;
  tr_duration_ms : Z;
  tr_track_number : option Z
}.

Record Response := mkResponse {
  status_code : Z;
  content : string
}.

Inductive LoadOutcome :=
  | LoadRaise (e : exn)
  | LoadNone
  | LoadOk.

(** What the interpreter and the libraries raise on the handlers' own
    arguments; the text of the exception is theirs. *)
Inductive Failure :=
  | NoSuchFile (path : string)
  | NotLoadable (path : string)
  | NotText (v : pyval)
  | BadYear (year : Z)
  | BadDate (text : string)
  | BadInt (text : string)
  | NoImageData.

(** Every oracle of a service takes the number of external calls made before
    this one. [ytdl_debris] gives the files a download that raises has left
    in the download directory. [int_of_text] is the built-in [int] on text
    ([None] for [ValueError]) and [date_of_text] tells which date texts eyed3
    accepts; [wording] is the message of each failure. *)
Record Env := mkEnv {
  telegram : nat -> option exn;
  ytdl : nat -> option string -> bool -> Result YtAnswer;
  spotify_track : nat -> string -> Result TrackInfo;
  eyed3_load : nat -> string -> LoadOutcome;
  http_get : nat -> string -> Result Response;
  tag_save : nat -> string -> option exn;
  ytdl_debris : nat -> option string -> list (string * File);
  int_of_text : string -> option Z;
  date_of_text : string -> bool;
  wording : Failure -> exn
}.

(** ** The handler monad: state and exceptions *)

Definition M (A : Type) : Type := World -> Result A * World.

Definition ret {A} (a : A) : M A := fun w => (Ok a, w).

Definition raise {A} (e : exn) : M A := fun w => (Raise e, w).

Definition bind {A B} (m : M A) (k : A -> M B) : M B :=
  fun w =>
    match m w with
    | (Ok a, w') => k a w'
    | (Raise e, w') => (Raise e, w')
    end.

Declare Scope handler_scope.
Delimit Scope handler_scope with handler.
Notation "x <- m ;; k" := (bind m (fun x => k))
  (at level 100, m at next level, right associativity) : handler_scope.
Notation "m ;; k" := (bind m (fun _ => k))
  (at level 100, right associativity) : handler_scope.
Local Open Scope handler_scope.

(** [try: body / except Exception as e: handler(e)]: what the body did before
    it raised stays done. *)
Definition try_except {A} (body : M A) (handler : exn -> M A) : M A :=
  fun w =>
    match body w with
    | (Ok a, w') => (Ok a, w')
    | (Raise e, w') => handler e w'
    end.

(** Ask an oracle: the answer for the current count, which then advances. *)
Definition consult {A} (oracle : nat -> A) : M A :=
  fun w => (Ok (oracle (tick w)), mkWorld (files w) (chat w) (log w) (S (tick w))).

Definition record (ev : Event) : M unit :=
  fun w => (Ok tt, mkWorld (files w) (chat w) (log w ++ [ev]) (tick w)).

Definition get_files : M (gmap string File) := fun w => (Ok (files w), w).

Definition set_files (fs : gmap string File) : M unit :=
  fun w => (Ok tt, mkWorld fs (chat w) (log w) (tick w)).

(** A new message in the chat; its identifier is its position. *)
Definition post (m : Message) : M nat :=
  fun w => (Ok (length (chat w)), mkWorld (files w) (chat w ++ [m]) (log w) (tick w)).

Definition set_message (id : nat) (m : Message) : M unit :=
  fun w => (Ok tt, mkWorld (files w) (<[id := m]> (chat w)) (log w) (tick w)).

Section Handlers.
Variable env : Env.

(** *** Telegram *)

Definition reply_text (text : string) : M nat :=
  failure <- consult (telegram env);;
  match failure with
  | Some e => raise e
  | None => id <- post (MText text);; record (EvReply id text);; ret id
  end.

Definition edit_text (status_message : nat) (text : string) : M unit :=
  failure <- consult (telegram env);;
  match failure with
  | Some e => raise e
  | None => set_message status_message (MText text);; record (EvEdit status_message text)
  end.

Definition reply_photo (photo caption : string) : M unit :=
  failure <- consult (telegram env);;
  match failure with
  | Some e => raise e
  | None => id <- post (MPhoto photo caption);; record (EvPhoto id photo caption)
  end.

Definition reply_audio (audio : string * File) (title : string) : M unit :=
  failure <- consult (telegram env);;
  match failure with
  | Some e => raise e
  | None => id <- post (MAudio (snd audio) title);; record (EvAudio id (fst audio) title)
  end.

(** *** Local files *)

(** [open(file_path, 'rb')]. *)
Definition open_rb (file_path : string) : M (string * File) :=
  fs <- get_files;;
  match fs !! file_path with
  | Some f => ret (file_path, f)
  | None => raise (wording env (NoSuchFile file_path))
  end.

(** [os.remove(file_path)]. *)
Definition os_remove (file_path : string) : M unit :=
  fs <- get_files;;
  match fs !! file_path with
  | Some _ => set_files (delete file_path fs);; record (EvRemove file_path)
  | None => raise (wording env (NoSuchFile file_path))
  end.

Definition logger_error (msg : string) : M unit := record (EvLogError msg).

(** *** yt-dlp *)

Fixpoint write_files (written : list (string * File)) : M unit :=
  match written with
  | [] => ret tt
  | (path, f) :: rest =>
      fs <- get_files;; set_files (<[path := f]> fs);; record (EvWrite path);;
      write_files rest
  end.

(** [ydl.extract_info(url, download=...)]: files appear only when
    downloading; a download that raises may have left files before it did. *)
Definition extract_info (url : option string) (download : bool) : M YtInfo :=
  record (EvExtract url download);;
  answer <- consult (fun n => (ytdl env n url download, ytdl_debris env n url));;
  match answer.1 with
  | Raise e => (if download then write_files answer.2 else ret tt);; raise e
  | Ok a => (if download then write_files (yt_written a) else ret tt);; ret (yt_info a)
  end.

(** *** Tag enrichment *)

Definition DOWNLOAD_DIR : string := "downloads".

(** [metadata.get(key, default)]. *)
Definition dict_get (metadata : gmap string pyval) (key : string) (default : pyval) : pyval :=
  match metadata !! key with
  | Some v => v
  | None => default
  end.

(** [eyed3.load(file_path)]: the tag of the file as read from disk, or
    Python's [None] for a file eyed3 does not recognise. *)
Definition eyed3_load_file (file_path : string) : M (option (option Tag)) :=
  record (EvLoad file_path);;
  fs <- get_files;;
  match fs !! file_path with
  | None => raise (wording env (NotLoadable file_path))
  | Some f =>
      outcome <- consult (fun n => eyed3_load env n file_path);;
      match outcome with
      | LoadRaise e => raise e
      | LoadNone => ret None
      | LoadOk => ret (Some (f_tag f))
      end
  end.

Definition requests_get (url : string) : M Response :=
  record (EvHttpGet url);;
  answer <- consult (fun n => http_get env n url);;
  match answer with
  | Raise e => raise e
  | Ok r => ret r
  end.

(** [audiofile.tag.save()]: the tag in memory goes to the file. *)
Definition save_tag (file_path : string) (tag : Tag) : M unit :=
  failure <- consult (fun n => tag_save env n file_path);;
  match failure with
  | Some e => raise e
  | None =>
      fs <- get_files;;
      set_files (alter (fun f => mkFile (f_audio f) (Some tag)) file_path fs);;
      record (EvTagSave file_path)
  end.

(** A result without the world, for the setters of the tag in memory. *)
Definition and_then {A B} (r : Result A) (k : A -> Result B) : Result B :=
  match r with
  | Ok a => k a
  | Raise e => Raise e
  end.

Definition lift {A} (r : Result A) : M A :=
  match r with
  | Ok a => ret a
  | Raise e => raise e
  end.

(** The pictures after [images.set(type, data, mime)] with the default
    description: the first picture that has the description of the new one
    becomes the new one, in place; without such a picture the new one is
    added at the end. *)
Fixpoint set_image (images : list Image) (new : Image) : list Image :=
  match images with
  | [] => [new]
  | i :: rest =>
      if has_description (img_description new) i then new :: rest
      else i :: set_image rest new
  end.

(** [tag.images.set(FRONT_COVER, image_data, 'image/jpeg')]; eyed3 refuses
    empty image data. *)
Definition set_front_cover (tag : Tag) (image_data : string) : Result Tag :=
  if String.eqb image_data "" then Raise (wording env NoImageData)
  else
    Ok (mkTag (tag_title tag) (tag_artist tag) (tag_album tag) (tag_album_artist tag)
          (tag_recording_date tag) (tag_track_num tag)
          (set_image (tag_images tag) (mkImage FRONT_COVER image_data "image/jpeg" ""))).

(** A text setter ([tag.title = ...]): a value that is not a string or
    [None] raises; [None] and the empty string remove the frame. *)
Definition text_frame (v : pyval) : Result (option string) :=
  match v with
  | VInt _ => Raise (wording env (NotText v))
  | _ => Ok (kept_text v)
  end.

(** [tag.recording_date = ...]: an integer is a year and must lie in
    1..9999; a string must be a date eyed3 can read; [None] removes the
    frame. *)
Definition date_frame (v : pyval) : Result (option pyval) :=
  match v with
  | VNone => Ok None
  | VInt year =>
      if (1 <=? year) && (year <=? 9999) then Ok (Some v)
      else Raise (wording env (BadYear year))
  | VStr text =>
      if date_of_text env text then Ok (Some v) else Raise (wording env (BadDate text))
  end.

(** [tag.track_num = ...]: an integer, a string that [int] reads, or
    [None], which removes the frame. *)
Definition track_frame (v : pyval) : Result (option Z) :=
  match v with
  | VNone => Ok None
  | VInt n => Ok (Some n)
  | VStr text =>
      match int_of_text env text with
      | Some n => Ok (Some n)
      | None => Raise (wording env (BadInt text))
      end
  end.

(** Lines 164-173: the assignments to the tag in memory, in their order; the
    first setter that raises ends them. *)
Definition set_basic_tags (tag : Tag) (metadata : gmap string pyval) : Result Tag :=
  and_then (text_frame (dict_get metadata "title" (VStr "Unknown Title"))) (fun title =>
  and_then (text_frame (dict_get metadata "artist" (VStr "Unknown Artist"))) (fun artist =>
  and_then (text_frame (dict_get metadata "album" (VStr "Unknown Album"))) (fun album =>
  and_then (text_frame (dict_get metadata "album_artist"
                          (dict_get metadata "artist" (VStr "Unknown Artist"))))
    (fun album_artist =>
  and_then (match metadata !! "year" with
            | Some year => date_frame year
            | None => Ok (tag_recording_date tag)
            end) (fun recording_date =>
  and_then (match metadata !! "track_number" with
            | Some n => track_frame n
            | None => Ok (tag_track_num tag)
            end) (fun track_num =>
  Ok (mkTag title artist album album_artist recording_date track_num (tag_images tag)))))))).

(** The body of the [try] of [add_id3_tags]. *)
Definition add_id3_tags_body (file_path : string) (metadata : gmap string pyval) : M unit :=
  audiofile <- eyed3_load_file file_path;;
  match audiofile with
  | None => raise "'NoneType' object has no attribute 'tag'"
  | Some on_disk =>
      let tag := match on_disk with
                 | None => empty_tag
                 | Some t => t
                 end in
      tag <- lift (set_basic_tags tag metadata);;
      tag <- match metadata !! "cover_url" with
             | Some cover_url =>
                 if truthy cover_url then
                   response <- requests_get (py_str cover_url);;
                   if status_code response =? 200
                   then lift (set_front_cover tag (content response))
                   else ret tag
                 else ret tag
             | None => ret tag
             end;;
      save_tag file_path tag
  end.

Definition add_id3_tags (file_path : string) (metadata : gmap string pyval) : M unit :=
  try_except (add_id3_tags_body file_path metadata)
    (fun e => logger_error ("Error adding ID3 tags: " +:+ e)).

(** *** Download and delivery *)

Definition msg_downloading : string := "â³ Downloading audio from YouTube...".
Definition msg_downloaded (title : string) : string := "âœ… Downloaded: " +:+ title.
Definition msg_download_error (e : exn) : string := "âŒ Error downloading audio: " +:+ e.

(** The path line 135 computes. *)
Definition artifact_path (title : string) : string :=
  DOWNLOAD_DIR +:+ "/" +:+ title +:+ ".mp3".

(** [if metadata:] holds for a dictionary with at least one key. *)
Definition metadata_given (metadata : option (gmap string pyval)) : option (gmap string pyval) :=
  match metadata with
  | Some md => if decide (md = ∅) then None else Some md
  | None => None
  end.

(** The body of the [try] of [download_from_youtube]. *)
Definition download_body (status_message : nat) (url : option string)
    (metadata : option (gmap string pyval)) : M unit :=
  info <- extract_info url true;;
  let title := default "Unknown Title" (yt_title info) in
  let file_path := artifact_path title in
  title <- match metadata_given metadata with
           | Some md =>
               add_id3_tags file_path md;;
               match md !! "title" with
               | Some t => ret (py_str t)
               | None => raise "'title'"
               end
           | None => ret title
           end;;
  edit_text status_message (msg_downloaded title);;
  audio <- open_rb file_path;;
  reply_audio audio title;;
  os_remove file_path.

Definition download_from_youtube (url : option string)
    (metadata : option (gmap string pyval)) : M unit :=
  status_message <- reply_text msg_downloading;;
  try_except (download_body status_message url metadata)
    (fun e =>
       logger_error ("Error downloading from YouTube: " +:+ e);;
       edit_text status_message (msg_download_error e)).

(** *** Search *)

Definition msg_no_match : string := "âŒ No matching tracks found on YouTube.".
Definition msg_track_error (e : exn) : string := "âŒ Error downloading track: " +:+ e.

Definition search_and_download_from_youtube (query : string)
    (metadata : option (gmap string pyval)) : M unit :=
  try_except
    (info <- extract_info (Some ("ytsearch:" +:+ query)) false;;
     match default [] (yt_entries info) with
     | [] => reply_text msg_no_match;; ret tt
     | video_info :: _ => download_from_youtube (e_webpage_url video_info) metadata
     end)
    (fun e =>
       logger_error ("Error searching/downloading from YouTube: " +:+ e);;
       reply_text (msg_track_error e);; ret tt).

(** *** Catalog metadata *)

Definition nl : string := String (ascii_of_nat 10) "".

Definition msg_fetching : string := "ðŸ” Fetching info from Spotify...".
Definition msg_valid_track_url : string := "Please provide a valid Spotify track URL.".
Definition msg_spotify_error (e : exn) : string := "âŒ Error fetching Spotify info: " +:+ e.

Definition info_message (title artist_names album release_date duration : string) : string :=
  "ðŸŽµ *" +:+ title +:+ "*" +:+ nl +:+
  "ðŸ‘¤ Artist: " +:+ artist_names +:+ nl +:+
  "ðŸ’¿ Album: " +:+ album +:+ nl +:+
  "ðŸ“… Release Date: " +:+ release_date +:+ nl +:+
  "â±ï¸ Duration: " +:+ duration +:+ nl +:+ nl +:+
  "Downloading this track with ID3 tags...".

(** Line 218; [Raise] stands for the [ValueError] of [int]. *)
Definition release_year (release_date : string) : Result (option Z) :=
  if contains "-" release_date then
    match int_of_text env (default "" (head (split_sep "-" release_date))) with
    | Some y => Ok (Some y)
    | None => Raise (wording env (BadInt (default "" (head (split_sep "-" release_date)))))
    end
  else Ok None.

(** Lines 221-231. *)
Definition build_metadata (title artist_names album album_artist : string)
    (image_url : option string) (track_number : Z) (year : option Z) : gmap string pyval :=
  let metadata : gmap string pyval :=
    <["title" := VStr title]>
    (<["artist" := VStr artist_names]>
    (<["album" := VStr album]>
    (<["album_artist" := VStr album_artist]>
    (<["cover_url" := match image_url with Some u => VStr u | None => VNone end]>
    (<["track_number" := VInt track_number]> ∅))))) in
  match year with
  | Some y => if y =? 0 then metadata else <["year" := VInt y]> metadata
  | None => metadata
  end.

Definition get_spotify_info (url : string) : M unit :=
  status_message <- reply_text msg_fetching;;
  try_except
    (if contains track_marker url then
       track_id <- match track_id_of url with
                   | Some id => ret id
                   | None => raise "list index out of range"
                   end;;
       record (EvTrack track_id);;
       answer <- consult (fun n => spotify_track env n track_id);;
       track_info <- match answer with
                     | Ok t => ret t
                     | Raise e => raise e
                     end;;
       let title := tr_name track_info in
       let artist_names := String.concat ", " (tr_artists track_info) in
       let album := tr_album_name track_info in
       let album_artist := String.concat ", " (tr_album_artists track_info) in
       let release_date := tr_release_date track_info in
       let duration := format_duration (tr_duration_ms track_info) in
       let image_url := head (tr_images track_info) in
       let track_number := default 1 (tr_track_number track_info) in
       year <- match release_year release_date with
               | Ok y => ret y
               | Raise e => raise e
               end;;
       let metadata :=
         build_metadata title artist_names album album_artist image_url track_number year in
       let message := info_message title artist_names album release_date duration in
       match image_url with
       | Some u =>
           if String.eqb u "" then edit_text status_message message
           else reply_photo u message
       | None => edit_text status_message message
       end;;
       search_and_download_from_youtube
         (title +:+ " " +:+ artist_names +:+ " audio") (Some metadata)
     else edit_text status_message msg_valid_track_url)
    (fun e =>
       logger_error ("Error getting Spotify info: " +:+ e);;
       edit_text status_message (msg_spotify_error e)).

(** *** Commands and free text *)

Definition is_video_word (word : string) : bool :=
  contains "youtube.com" word || contains "youtu.be" word.

Definition is_track_word (word : string) : bool :=
  contains "spotify.com/track" word.

Definition msg_need_url : string :=
  "Please provide a YouTube URL after the /download command.".
Definition msg_invalid_url : string := "Please provide a valid YouTube URL.".
Definition msg_need_spotify_url : string :=
  "Please provide a Spotify URL after the /spotify command.".
Definition msg_invalid_spotify_url : string := "Please provide a valid Spotify URL.".
Definition msg_usage : string :=
  "Please send a YouTube or Spotify link. Use /help for more information.".

(** [/download]: [args] is [context.args]. *)
Definition download_command (args : list string) : M unit :=
  match args with
  | [] => reply_text msg_need_url;; ret tt
  | url :: _ =>
      if is_video_word url then download_from_youtube (Some url) None
      else reply_text msg_invalid_url;; ret tt
  end.

(** [/spotify]. *)
Definition spotify_command (args : list string) : M unit :=
  match args with
  | [] => reply_text msg_need_spotify_url;; ret tt
  | url :: _ =>
      if contains "spotify.com" url then get_spotify_info url
      else reply_text msg_invalid_spotify_url;; ret tt
  end.

(** [for word in words: if test(word): await action(word); return]. *)
Fixpoint scan_words (test : string -> bool) (action : string -> M unit)
    (words : list string) : M unit :=
  match words with
  | [] => ret tt
  | word :: rest => if test word then action word else scan_words test action rest
  end.

(** Free text: [text] is [update.message.text]. *)
Definition handle_message (text : string) : M unit :=
  if contains "youtube.com" text || contains "youtu.be" text then
    scan_words is_video_word (fun word => download_from_youtube (Some word) None)
      (split_ws text)
  else if contains "spotify.com/track" text then
    scan_words is_track_word get_spotify_info (split_ws text)
  else reply_text msg_usage;; ret tt.
End Handlers.

(** ** Observations on a run *)

(** The events a run added to the log of the world it started from. *)
Definition new_events (w w' : World) : list Event := drop (length (log w)) (log w').

(** Text messages created or edited: the status notices. *)
Definition is_text_event (ev : Event) : bool :=
  match ev with
  | EvReply _ _ | EvEdit _ _ => true
  | _ => false
  end.

Definition text_events (evs : list Event) : list Event := List.filter is_text_event evs.

(** A retrieval attempt: a downloading [extract_info] call, or a file
    appearing in the download directory. *)
Definition is_retrieval (ev : Event) : bool :=
  match ev with
  | EvExtract _ true | EvWrite _ => true
  | _ => false
  end.

(** The path of the artifact an event reads, tags, sends or removes. *)
Definition artifact_of (ev : Event) : option string :=
  match ev with
  | EvLoad p | EvTagSave p | EvAudio _ p _ | EvRemove p => Some p
  | _ => None
  end.

Definition used_paths (evs : list Event) : list string := omap artifact_of evs.

(** An event touches no artifact but [path]. *)
Definition touches_only (path : string) (ev : Event) : Prop :=
  match artifact_of ev with
  | Some p => p = path
  | None => True
  end.

(** What tag enrichment may add to the log. *)
Definition is_tagging_event (ev : Event) : bool :=
  match ev with
  | EvLoad _ | EvHttpGet _ | EvTagSave _ | EvLogError _ => true
  | _ => false
  end.

(** The album artist [add_id3_tags] is to write, in the words of the
    specification: the album-artist entry, else the artist entry, else
    ["Unknown Artist"]. *)
Definition album_artist_wanted (metadata : gmap string pyval) : pyval :=
  match metadata !! "album_artist" with
  | Some v => v
  | None =>
      match metadata !! "artist" with
      | Some a => a
      | None => VStr "Unknown Artist"
      end
  end.

(** The token the specification has free text act on: the first word holding
    a video-host or a catalog-track marker. *)
Definition first_recognized (text : string) : option string :=
  List.find (fun word => is_video_word word || is_track_word word) (split_ws text).

(** The download directory after yt-dlp wrote [written] into it. *)
Definition with_written (fs : gmap string File) (written : list (string * File)) :
    gmap string File :=
  foldl (fun acc pf => <[pf.1 := pf.2]> acc) fs written.

(** ** Relations between the world before and after a run *)

Definition grows (P : Event -> Prop) (w w' : World) : Prop :=
  exists evs, log w' = log w ++ evs /\ Forall P evs.

Definition same_files (w w' : World) : Prop := files w' = files w.

Definition same_chat (w w' : World) : Prop := chat w' = chat w.

(** Tagging may rewrite the tag of a file, never its audio bytes nor which
    files exist. *)
Definition same_audio (w w' : World) : Prop :=
  forall p, f_audio <$> (files w' !! p) = f_audio <$> (files w !! p).

Definition preserves (R : World -> World -> Prop) {A} (m : M A) : Prop :=
  forall w, R w (m w).2.

(** ** Sample worlds and services *)

Definition fresh_world : World := mkWorld ∅ [] [] 0.

Definition sample_track : TrackInfo :=
  mkTrackInfo "Song" ["Ann"; "Bob"] "Album" ["Ann"] "2021-05-14"
    ["https://i.scdn.co/image/cover"] 185000 (Some 4).

(** [int] on the texts the samples use: a run of decimal digits. *)
Definition sample_int (text : string) : option Z :=
  if all_digits text && negb (String.eqb text "") then Some (decimal_value 0 text) else None.

(** The dates the samples use: a year of four digits. *)
Definition sample_date (text : string) : bool :=
  all_digits text && (String.length text =? 4)%nat.

Definition sample_wording (failure : Failure) : exn :=
  match failure with
  | NoSuchFile path => "[Errno 2] No such file or directory: '" +:+ path +:+ "'"
  | NotLoadable path => "file not found: " +:+ path
  | NotText v => "Argument 2 must be unicode strings"
  | BadYear year => "year " +:+ py_str_int year +:+ " is out of range"
  | BadDate text => "Invalid date string: " +:+ text
  | BadInt text => "invalid literal for int() with base 10: '" +:+ text +:+ "'"
  | NoImageData => "img_url MUST not be none when no image data"
  end.

(** Every service answers: any download resolves to the title ["Song"], any
    search finds one video. *)
Definition all_up : Env :=
  mkEnv
    (fun _ => None)
    (fun _ _ download =>
       if download
       then Ok (mkYtAnswer (mkYtInfo (Some "Song") None)
                  [("downloads/Song.mp3", mkFile "mp3 bytes" None)])
       else Ok (mkYtAnswer (mkYtInfo None (Some [mkYtEntry (Some "https://youtu.be/found")])) []))
    (fun _ _ => Ok sample_track)
    (fun _ _ => LoadOk)
    (fun _ _ => Ok (mkResponse 200 "jpeg bytes"))
    (fun _ _ => None)
    (fun _ _ => [])
    sample_int sample_date sample_wording.

(** [env] with other answers from Telegram, yt-dlp, the catalog, eyed3's
    loader or the cover server. *)
Definition with_telegram (env : Env) (answers : nat -> option exn) : Env :=
  mkEnv answers (ytdl env) (spotify_track env) (eyed3_load env) (http_get env) (tag_save env)
    (ytdl_debris env) (int_of_text env) (date_of_text env) (wording env).

Definition with_ytdl (env : Env)
    (answers : nat -> option string -> bool -> Result YtAnswer) : Env :=
  mkEnv (telegram env) answers (spotify_track env) (eyed3_load env) (http_get env) (tag_save env)
    (ytdl_debris env) (int_of_text env) (date_of_text env) (wording env).

Definition with_catalog (env : Env) (answers : nat -> string -> Result TrackInfo) : Env :=
  mkEnv (telegram env) (ytdl env) answers (eyed3_load env) (http_get env) (tag_save env)
    (ytdl_debris env) (int_of_text env) (date_of_text env) (wording env).

Definition with_loader (env : Env) (answers : nat -> string -> LoadOutcome) : Env :=
  mkEnv (telegram env) (ytdl env) (spotify_track env) answers (http_get env) (tag_save env)
    (ytdl_debris env) (int_of_text env) (date_of_text env) (wording env).

Definition with_http (env : Env) (answers : nat -> string -> Result Response) : Env :=
  mkEnv (telegram env) (ytdl env) (spotify_track env) (eyed3_load env) answers (tag_save env)
    (ytdl_debris env) (int_of_text env) (date_of_text env) (wording env).

Definition with_debris (env : Env)
    (left_behind : nat -> option string -> list (string * File)) : Env :=
  mkEnv (telegram env) (ytdl env) (spotify_track env) (eyed3_load env) (http_get env)
    (tag_save env) left_behind (int_of_text env) (date_of_text env) (wording env).

(** As [all_up], but the external call number [k] of the run, a Telegram
    call, times out. *)
Definition telegram_down_at (k : nat) : Env :=
  with_telegram all_up (fun n => if (n =? k)%nat then Some "Timed out" else None).

(** As [all_up], but the cover image cannot be fetched. *)
Definition cover_unreachable : Env :=
  with_http all_up (fun _ _ => Raise "Connection refused").

(** As [all_up], but every search comes back empty. *)
Definition nothing_found : Env :=
  with_ytdl all_up
    (fun n url download =>
       if download then ytdl all_up n url download
       else Ok (mkYtAnswer (mkYtInfo None (Some [])) [])).

Definition sample_metadata : gmap string pyval :=
  build_metadata "Song" "Ann, Bob" "Album" "Ann" None 4 (Some 2021).

(** ** Static replies and the routing table *)

Definition msg_start : string :=
  "Welcome to the Music Downloader Bot!" +:+ nl +:+ nl +:+
  "Send me a YouTube link to download a song or a Spotify link to get song info and download it." +:+ nl +:+ nl +:+
  "Available commands:" +:+ nl +:+
  "/help - Show this help message" +:+ nl +:+
  "/download [YouTube URL] - Download audio from YouTube" +:+ nl +:+
  "/spotify [Spotify URL] - Get song info from Spotify and download with ID3 tags".

Definition msg_help : string :=
  "How to use this bot:" +:+ nl +:+ nl +:+
  "1. Send a YouTube or Spotify link directly" +:+ nl +:+
  "2. Or use one of these commands:" +:+ nl +:+
  "   /download [YouTube URL] - Download audio from YouTube" +:+ nl +:+
  "   /spotify [Spotify URL] - Get song info from Spotify and download with ID3 tags".

(** [/start]. *)
Definition start (env : Env) : M unit := (reply_text env msg_start;; ret tt)%handler.

(** [/help]. *)
Definition help_command (env : Env) : M unit := (reply_text env msg_help;; ret tt)%handler.

(** An update the application has a handler for, as [main] registers them:
    the four commands with their [context.args], and a text message that is
    not a command. The handlers are registered without a filter on the kind
    of update, so they also receive an edited message or a channel post,
    whose [update.message] is [None]: [EditedCommand] is any of the four
    commands in such an update, [EditedText] a text that is not a command. *)
Inductive Update :=
  | CommandStart (args : list string)
  | CommandHelp (args : list string)
  | CommandDownload (args : list string)
  | CommandSpotify (args : list string)
  | TextMessage (text : string)
  | EditedCommand (args : list string)
  | EditedText (text : string).


(** What the first use of [update.message] raises when it is [None]: every
    path of a command handler starts with [update.message.reply_text]
    (lines 46, 57, 68, 75, 80, 87, 116, 191), the text handler with
    [update.message.text] (line 91). *)
Definition no_reply_text : exn := "'NoneType' object has no attribute 'reply_text'".
Definition no_text : exn := "'NoneType' object has no attribute 'text'".

(** The routing table of [main], lines 301-307. *)
Definition route (env : Env) (update : Update) : M unit :=
  match update with
  | CommandStart _ => start env
  | CommandHelp _ => help_command env
  | CommandDownload args => download_command env args
  | CommandSpotify args => spotify_command env args
  | TextMessage text => handle_message env text
  | EditedCommand _ => raise no_reply_text
  | EditedText _ => raise no_text
  end.

(** ** Further observations *)

(** A program that returns normally from every world. *)
Definition never_raises {A} (m : M A) : Prop := forall w, exists a, (m w).1 = Ok a.

(** The first [n] messages of the chat are still there, unchanged. *)
Definition keeps_first (n : nat) (w w' : World) : Prop :=
  (n <= length (chat w))%nat ->
  (n <= length (chat w'))%nat /\ take n (chat w') = take n (chat w).

(** Text notices and log lines: what a request may do without calling any
    service but Telegram's text messages. *)
Definition is_notice (ev : Event) : bool :=
  match ev with
  | EvReply _ _ | EvEdit _ _ | EvLogError _ => true
  | _ => false
  end.

Definition is_http_event (ev : Event) : bool :=
  match ev with
  | EvHttpGet _ => true
  | _ => false
  end.

(** ** Further sample services *)

(** As [all_up], but yt-dlp fails on every call. *)
Definition ytdl_down : Env :=
  with_ytdl all_up (fun _ _ _ => Raise "Video unavailable").

(** As [all_up], but the download raises in the conversion to mp3, after
    the media file was written. *)
Definition conversion_fails : Env :=
  with_debris
    (with_ytdl all_up (fun _ _ _ => Raise "Postprocessing: ffmpeg not found"))
    (fun _ _ => [("downloads/Song.webm", mkFile "webm bytes" None)]).

(** As [all_up], but the catalog provider fails on every call. *)
Definition catalog_down : Env :=
  with_catalog all_up (fun _ _ => Raise "http status: 404").

(** As [all_up], but the cover server answers 404. *)
Definition cover_missing : Env :=
  with_http all_up (fun _ _ => Ok (mkResponse 404 "not found")).

(** As [all_up], but eyed3 does not recognise any file. *)
Definition eyed3_blind : Env :=
  with_loader all_up (fun _ _ => LoadNone).

(** As [all_up], but yt-dlp leaves the audio under another name than the
    title it reports. *)
Definition renamed_output : Env :=
  with_ytdl all_up
    (fun n url download =>
       if download
       then Ok (mkYtAnswer (mkYtInfo (Some "AC/DC") None)
                  [("downloads/AC_DC.mp3", mkFile "mp3 bytes" None)])
       else ytdl all_up n url download).


Definition cover_only : gmap string pyval :=
  {["cover_url" := VStr "https://i.scdn.co/image/cover"]}.

Definition one_file_world : World :=
  mkWorld {["downloads/Song.mp3" := mkFile "mp3 bytes" None]} [MText "earlier"] [] 0.

(** A front cover the file already carries under a description of its own. *)
Definition old_cover : Image := mkImage FRONT_COVER "png bytes" "image/png" "sleeve".

Definition covered_world : World :=
  mkWorld
    {["downloads/Song.mp3"
      := mkFile "mp3 bytes" (Some (mkTag None None None None None None [old_cover]))]}
    [] [] 0.

(** ** String lemmas *)

Lemma append_cons (c : ascii) (a b : string) : String c a +:+ b = String c (a +:+ b).
Proof. reflexivity. Qed.

Lemma append_nil_l (s : string) : "" +:+ s = s.
Proof. reflexivity. Qed.

Lemma append_nil_r (s : string) : s +:+ "" = s.
Proof. induction s as [|c s IH]; [reflexivity | now rewrite append_cons, IH]. Qed.

Lemma append_assoc (a b c : string) : (a +:+ b) +:+ c = a +:+ (b +:+ c).
Proof. induction a as [|x a IH]; [reflexivity | now rewrite !append_cons, IH]. Qed.

Lemma append_snoc (a : string) (c : ascii) (b : string) :
  (a +:+ String c "") +:+ b = a +:+ String c b.
Proof. now rewrite append_assoc. Qed.

Lemma length_append (a b : string) :
  String.length (a +:+ b) = (String.length a + String.length b)%nat.
Proof.
  induction a as [|x a IH]; [reflexivity|].
  rewrite append_cons. cbn [String.length]. now rewrite IH.
Qed.

Lemma prefix_cons (c d : ascii) (p s : string) :
  String.prefix (String c p) (String d s) = Ascii.eqb c d && String.prefix p s.
Proof.
  simpl. destruct (ascii_dec c d) as [->|Hne].
  - now rewrite Ascii.eqb_refl.
  - apply Ascii.eqb_neq in Hne. now rewrite Hne.
Qed.

Lemma prefix_empty_r (p : string) : p <> "" -> String.prefix p "" = false.
Proof. destruct p; [congruence | reflexivity]. Qed.

Lemma prefix_append (p s : string) : String.prefix p (p +:+ s) = true.
Proof.
  induction p as [|c p IH]; [now destruct s|].
  change (String c p +:+ s) with (String c (p +:+ s)).
  now rewrite prefix_cons, Ascii.eqb_refl.
Qed.

(** A window as long as the pattern does not look past it. *)
Lemma prefix_long (p u t : string) :
  (String.length p <= String.length u)%nat ->
  String.prefix p (u +:+ t) = String.prefix p u.
Proof.
  revert u. induction p as [|c p IH]; intros u Hlen.
  - now destruct u, t.
  - destruct u as [|d u]; [simpl in Hlen; lia|].
    change (String d u +:+ t) with (String d (u +:+ t)).
    rewrite !prefix_cons. rewrite IH; [reflexivity | simpl in Hlen; lia].
Qed.

(** A character foreign to the pattern stops every match that would cross
    it. *)
Lemma prefix_foreign (p u : string) (c : ascii) (b : string) :
  occurs c p = false ->
  String.prefix p (u +:+ String c b) = String.prefix p u.
Proof.
  revert u. induction p as [|x p IH]; intros u Hocc.
  - now destruct u.
  - simpl in Hocc. apply orb_false_iff in Hocc as [Hx Hp].
    destruct u as [|d u].
    + change ("" +:+ String c b) with (String c b).
      rewrite prefix_cons. rewrite Ascii.eqb_sym, Hx. reflexivity.
    + change (String d u +:+ String c b) with (String d (u +:+ String c b)).
      rewrite !prefix_cons. now rewrite IH.
Qed.

Lemma contains_foreign (p a : string) (c : ascii) (b : string) :
  p <> "" -> occurs c p = false ->
  contains p (a +:+ String c b) = contains p a || contains p b.
Proof.
  intros Hne Hocc. induction a as [|x a IH].
  - change ("" +:+ String c b) with (String c b).
    cbn [contains].
    assert (Hp : String.prefix p (String c b) = String.prefix p "")
      by exact (prefix_foreign p "" c b Hocc).
    now rewrite Hp, (prefix_empty_r p Hne).
  - change (String x a +:+ String c b) with (String x (a +:+ String c b)).
    cbn [contains]. rewrite IH.
    change (String x (a +:+ String c b)) with (String x a +:+ String c b).
    rewrite (prefix_foreign p (String x a) c b Hocc).
    now rewrite orb_assoc.
Qed.

Lemma blank_occurs (c : ascii) (p : string) :
  is_blank c = true -> plain p = true -> occurs c p = false.
Proof.
  intros Hc. induction p as [|d p IH]; simpl; [reflexivity|].
  intros [[Hd Hascii]%andb_true_iff Hp]%andb_true_iff. rewrite (IH Hp), orb_false_r.
  apply Ascii.eqb_neq. intros ->.
  unfold is_blank in Hc. apply orb_true_iff in Hc as [Hc|Hc].
  - now rewrite Hc in Hd.
  - apply Nat.leb_le in Hc. apply Nat.ltb_lt in Hascii. lia.
Qed.

Lemma high_blank (c : ascii) : (128 <= nat_of_ascii c)%nat -> is_blank c = true.
Proof. intros H. unfold is_blank. apply orb_true_iff. right. now apply Nat.leb_le. Qed.

(** Every byte of a whitespace character is blank. *)
Lemma space_width_blank (c : ascii) (s : string) (k : nat) :
  space_width (String c s) = S k -> is_blank c = true /\ blank_first k s = true.
Proof.
  unfold space_width. destruct (is_space c) eqn:Hc.
  - intros [= <-]. split; [unfold is_blank; now rewrite Hc | reflexivity].
  - destruct s as [|c2 s]; [discriminate|].
    destruct (two_byte_space _ _) eqn:H2.
    + intros [= <-]. unfold two_byte_space in H2.
      apply andb_true_iff in H2 as [H1 H2]. apply Nat.eqb_eq in H1.
      apply orb_true_iff in H2. cbn [blank_first].
      rewrite !high_blank; [now split | | lia].
      destruct H2 as [H2|H2]; apply Nat.eqb_eq in H2; lia.
    + destruct s as [|c3 s]; [discriminate|].
      destruct (three_byte_space _ _ _) eqn:H3; [|discriminate].
      intros [= <-]. unfold three_byte_space in H3. cbn [blank_first].
      assert (H : (128 <= nat_of_ascii c /\ 128 <= nat_of_ascii c2
                   /\ 128 <= nat_of_ascii c3)%nat).
      { repeat match type of H3 with
               | (_ || _) = true => apply orb_true_iff in H3 as [H3|H3]
               end;
        repeat match goal with
               | H : (_ && _) = true |- _ => apply andb_true_iff in H as [? ?]
               | H : (_ || _) = true |- _ => apply orb_true_iff in H as [?|?]
               | H : (_ =? _)%nat = true |- _ => apply Nat.eqb_eq in H
               | H : (_ <=? _)%nat = true |- _ => apply Nat.leb_le in H
               end; lia. }
      destruct H as (H1 & H2' & H3').
      now rewrite !high_blank.
Qed.

Lemma existsb_emit (f : string -> bool) (cur : string) :
  f "" = false -> existsb f (emit cur) = f cur.
Proof. intros H0. destruct cur; simpl; [now rewrite H0 | now rewrite orb_false_r]. Qed.

(** A plain pattern lies in the text exactly when it lies in one of the
    words [split()] returns: no byte of a whitespace character is a byte of
    the pattern. *)
Lemma contains_split_ws_go (p s : string) :
  p <> "" -> plain p = true ->
  (forall cur, existsb (contains p) (split_ws_go 0 cur s) = contains p (cur +:+ s)) /\
  (forall skip, blank_first skip s = true ->
     existsb (contains p) (split_ws_go skip "" s) = contains p s).
Proof.
  intros Hne Hp.
  assert (H0 : contains p "" = false).
  { cbn [contains]. now rewrite (prefix_empty_r p Hne). }
  assert (Hdrop : forall c t, is_blank c = true -> contains p (String c t) = contains p t).
  { intros c t Hc.
    change (String c t) with ("" +:+ String c t).
    rewrite contains_foreign by (exact Hne || now apply blank_occurs).
    now rewrite H0. }
  induction s as [|c s [IH1 IH2]].
  - split.
    + intros cur. simpl. rewrite append_nil_r. now apply existsb_emit.
    + intros skip _. now destruct skip.
  - assert (Hfirst : forall cur,
      existsb (contains p) (split_ws_go 0 cur (String c s)) = contains p (cur +:+ String c s)).
    { intros cur. cbn [split_ws_go]. destruct (space_width (String c s)) as [|k] eqn:Hw.
      - rewrite IH1. now rewrite append_snoc.
      - apply space_width_blank in Hw as [Hc Hk].
        rewrite existsb_app, existsb_emit by exact H0.
        rewrite (IH2 k Hk).
        symmetry. apply contains_foreign; [exact Hne | now apply blank_occurs]. }
    split; [exact Hfirst|].
    intros [|k] Hk.
    + exact (Hfirst "").
    + cbn [blank_first] in Hk. apply andb_true_iff in Hk as [Hc Hk].
      cbn [split_ws_go]. rewrite (IH2 k Hk). symmetry. now apply Hdrop.
Qed.

Example split_ws_ascii : split_ws "  see   https://youtu.be/abc " = ["see"; "https://youtu.be/abc"].
Proof. reflexivity. Qed.

Example split_ws_no_break_space :
  split_ws ("see" +:+ no_break_space +:+ "https://youtu.be/abc")
  = ["see"; "https://youtu.be/abc"].
Proof. reflexivity. Qed.

Example split_ws_ideographic_space :
  split_ws (ideographic_space +:+ "https://youtu.be/abc" +:+ ideographic_space +:+ "please")
  = ["https://youtu.be/abc"; "please"].
Proof. reflexivity. Qed.

Lemma contains_split_ws (p s : string) :
  p <> "" -> plain p = true ->
  contains p s = existsb (contains p) (split_ws s).
Proof.
  intros Hne Hp. unfold split_ws.
  now rewrite (proj1 (contains_split_ws_go p s Hne Hp) "").
Qed.

(** ** Splitting on a separator *)

Section SplitSep.
Variable sep : string.

Lemma split_sep_go_skip (x cur r : string) :
  split_sep_go sep (String.length x) cur (x +:+ r) = split_sep_go sep 0 cur r.
Proof.
  induction x as [|c x IH]; [reflexivity|].
  rewrite append_cons. destruct r; cbn [String.length split_sep_go]; exact IH.
Qed.

Lemma split_sep_go_no_match (a t cur : string) :
  no_match_in sep a t = true ->
  split_sep_go sep 0 cur (a +:+ t) = split_sep_go sep 0 (cur +:+ a) t.
Proof.
  revert cur. induction a as [|c a IH]; intros cur Hno.
  - now rewrite append_nil_l, append_nil_r.
  - cbn [no_match_in] in Hno. apply andb_true_iff in Hno as [Hhere Hlater].
    apply negb_true_iff in Hhere. rewrite append_cons in Hhere |- *.
    cbn [split_sep_go]. rewrite Hhere, (IH _ Hlater).
    now rewrite append_snoc.
Qed.

Lemma split_sep_go_at_sep (cur r : string) :
  sep <> "" ->
  split_sep_go sep 0 cur (sep +:+ r) = cur :: split_sep_go sep 0 "" r.
Proof.
  intros Hne. pose proof (prefix_append sep r) as Hpre.
  assert (Hsep : exists c x, sep = String c x).
  { destruct sep as [|c x]; [congruence | now exists c, x]. }
  destruct Hsep as (c & x & Hsep).
  assert (Hcut : sep +:+ r = String c (x +:+ r)) by now rewrite Hsep.
  rewrite Hcut in Hpre |- *. cbn [split_sep_go]. rewrite Hpre. f_equal.
  replace (String.length sep - 1)%nat with (String.length x)
    by (rewrite Hsep; cbn [String.length]; lia).
  apply split_sep_go_skip.
Qed.

(** The first piece extends the piece being read. *)
Lemma split_sep_go_head (skip : nat) (cur s : string) :
  exists w l, split_sep_go sep skip cur s = (cur +:+ w) :: l.
Proof.
  revert skip cur. induction s as [|c s IH]; intros skip cur.
  - exists "", []. now rewrite append_nil_r.
  - cbn [split_sep_go]. destruct skip as [|k]; [|apply IH].
    destruct (String.prefix sep (String c s)).
    + exists "". eexists. now rewrite append_nil_r.
    + destruct (IH 0%nat (cur +:+ String c "")) as (w & l & Heq).
      exists (String c w), l. now rewrite Heq, append_snoc.
Qed.

(** The first piece up to the first match, with the text it stops at. *)
Lemma split_sep_go_first (cur s : string) :
  exists w t l,
    s = w +:+ t /\ no_match_in sep w t = true /\
    split_sep_go sep 0 cur s = (cur +:+ w) :: l.
Proof.
  revert cur. induction s as [|c s IH]; intros cur.
  - exists "", "", []. repeat split; now rewrite ?append_nil_r.
  - cbn [split_sep_go]. destruct (String.prefix sep (String c s)) eqn:Hpre.
    + exists "", (String c s). eexists. repeat split; now rewrite ?append_nil_r.
    + destruct (IH (cur +:+ String c "")) as (w & t & l & Hs & Hno & Heq).
      exists (String c w), t, l. split; [now rewrite append_cons, Hs|].
      split; [|now rewrite Heq, append_snoc].
      cbn [no_match_in]. rewrite append_cons, <- Hs, Hpre. exact Hno.
Qed.

Lemma no_match_in_weaken (a t : string) :
  no_match_in sep a t = true -> no_match_in sep a "" = true.
Proof.
  induction a as [|c a IH]; [reflexivity|].
  cbn [no_match_in]. intros [Hhere Hlater]%andb_true_iff.
  rewrite (IH Hlater), andb_true_r.
  apply negb_true_iff in Hhere. apply negb_true_iff.
  destruct (String.prefix sep (String c a +:+ "")) eqn:Hpre; [|reflexivity].
  rewrite append_nil_r in Hpre.
  assert (Hex : exists r, String c a = sep +:+ r).
  { clear -Hpre. revert Hpre. generalize (String c a) as u.
    induction sep as [|x p IHp]; intros u Hpre.
    - now exists u.
    - destruct u as [|d u]; [discriminate|].
      rewrite prefix_cons in Hpre. apply andb_true_iff in Hpre as [Hx Hp].
      apply Ascii.eqb_eq in Hx as ->. destruct (IHp u Hp) as [r ->].
      now exists r. }
  destruct Hex as [r Hr]. rewrite Hr, append_assoc, prefix_append in Hhere.
  discriminate.
Qed.

(** A text without a match is a single piece. *)
Lemma split_sep_no_match (a : string) :
  no_match_in sep a "" = true -> split_sep sep a = [a].
Proof.
  intros Hno. unfold split_sep.
  rewrite <- (append_nil_r a) at 1. now rewrite split_sep_go_no_match.
Qed.

Lemma no_match_of_foreign (a : string) (c : ascii) (b : string) :
  contains sep a = false -> occurs c sep = false ->
  no_match_in sep a (String c b) = true.
Proof.
  intros Hno Hocc. induction a as [|x a IH]; [reflexivity|].
  cbn [contains] in Hno. apply orb_false_iff in Hno as [Hhere Hlater].
  cbn [no_match_in]. rewrite (IH Hlater), andb_true_r.
  now rewrite prefix_foreign, Hhere.
Qed.

(** When [a] followed by a window [w] of all but one character of the
    separator holds no match, no match starts inside [a], whatever follows
    the window. *)
Lemma no_match_of_window (a w t : string) :
  (String.length sep <= S (String.length w))%nat ->
  contains sep (a +:+ w) = false ->
  no_match_in sep a (w +:+ t) = true.
Proof.
  intros Hlen Hno. induction a as [|x a IH]; [reflexivity|].
  rewrite append_cons in Hno. cbn [contains] in Hno.
  apply orb_false_iff in Hno as [Hhere Hlater].
  cbn [no_match_in]. rewrite (IH Hlater), andb_true_r.
  rewrite <- append_assoc, prefix_long.
  - rewrite append_cons. now rewrite Hhere.
  - rewrite length_append. cbn [String.length]. lia.
Qed.

Lemma contains_at (a r : string) : contains sep (a +:+ sep +:+ r) = true.
Proof.
  induction a as [|x a IH].
  - rewrite append_nil_l. destruct (sep +:+ r) eqn:E; cbn [contains];
      rewrite <- E, prefix_append; reflexivity.
  - rewrite append_cons. cbn [contains]. rewrite IH. apply orb_true_r.
Qed.
End SplitSep.

(** ** Track identifier extraction *)

Ltac case_chars :=
  repeat match goal with
  | |- context [Ascii.eqb ?a ?b] =>
      destruct (Ascii.eqb_spec a b); subst; cbn [andb]; try reflexivity
  end.

(** The marker starts and ends with a slash, so it can only straddle the end
    of a base that ends in ["/track"]. *)
Lemma marker_window (base : string) :
  contains track_marker base = false ->
  endswith base "/track" = false ->
  contains track_marker (base +:+ "/track") = false.
Proof.
  induction base as [|c b IH]; intros Hno Hend; [reflexivity|].
  cbn [contains endswith] in Hno, Hend.
  apply orb_false_iff in Hno as [Hhere Hlater].
  apply orb_false_iff in Hend as [Hend Hendl].
  rewrite append_cons. cbn [contains].
  rewrite (IH Hlater Hendl), orb_false_r.
  destruct b as [|c2 [|c3 [|c4 [|c5 [|c6 [|c7 b]]]]]].
  7: { rewrite <- append_cons, prefix_long; [exact Hhere|].
       cbn [String.length track_marker]. lia. }
  all: unfold track_marker; rewrite ?append_cons, ?append_nil_l;
    rewrite ?prefix_cons; case_chars.
  all: try discriminate.
  all: vm_compute in Hend; discriminate.
Qed.

Lemma split_marker_second (base rest : string) :
  contains track_marker (base +:+ "/track") = false ->
  split_sep track_marker (base +:+ track_marker +:+ rest) !! 1%nat
  = head (split_sep track_marker rest).
Proof.
  intros Hwin. unfold split_sep.
  assert (Hno : no_match_in track_marker base ("/track" +:+ "/" +:+ rest) = true).
  { apply no_match_of_window; [cbn; lia | exact Hwin]. }
  change ("/track" +:+ "/" +:+ rest) with (track_marker +:+ rest) in Hno.
  rewrite (split_sep_go_no_match _ _ _ _ Hno), append_nil_l.
  rewrite split_sep_go_at_sep by discriminate.
  now destruct (split_sep_go track_marker 0 "" rest).
Qed.

Lemma split_marker_head (id suffix : string) :
  contains track_marker id = false ->
  exists w, head (split_sep track_marker (id +:+ "?" +:+ suffix)) = Some (id +:+ "?" +:+ w).
Proof.
  intros Hid. unfold split_sep.
  assert (Hno : no_match_in track_marker id (String "?" suffix) = true).
  { now apply no_match_of_foreign. }
  change ("?" +:+ suffix) with (String "?" suffix).
  rewrite (split_sep_go_no_match _ _ _ _ Hno), append_nil_l.
  cbn [split_sep_go]. unfold track_marker at 1. rewrite prefix_cons.
  cbn [andb Ascii.eqb Bool.eqb].
  destruct (split_sep_go_head track_marker 0 (id +:+ "?") suffix)
    as (w & l & Heq).
  exists w. rewrite Heq. cbn [head]. now rewrite append_assoc.
Qed.

Lemma strip_query_at (id w : string) :
  contains "?" id = false -> strip_query (id +:+ "?" +:+ w) = Some id.
Proof.
  intros Hid. unfold strip_query, split_sep.
  assert (Hno : no_match_in "?" id ("" +:+ "?" +:+ w) = true).
  { apply no_match_of_window; [cbn; lia | now rewrite append_nil_r]. }
  rewrite append_nil_l in Hno.
  rewrite (split_sep_go_no_match _ _ _ _ Hno), append_nil_l.
  now rewrite split_sep_go_at_sep by discriminate.
Qed.

Lemma extract_track_id_built (base id suffix : string) :
  contains track_marker base = false ->
  endswith base "/track" = false ->
  contains track_marker id = false ->
  contains "?" id = false ->
  extract_track_id (base +:+ "/track/" +:+ id +:+ "?" +:+ suffix) = Some id.
Proof.
  intros Hbase Hend Hid Hq. unfold extract_track_id, track_id_of.
  change "/track/" with track_marker.
  rewrite contains_at.
  rewrite split_marker_second by now apply marker_window.
  destruct (split_marker_head id suffix Hid) as [w ->].
  now apply strip_query_at.
Qed.

Lemma extract_track_id_of_id (id : string) :
  contains track_marker id = false -> extract_track_id id = None.
Proof. intros Hid. unfold extract_track_id. now rewrite Hid. Qed.

Lemma strip_query_idempotent (s r : string) :
  strip_query s = Some r -> strip_query r = Some r.
Proof.
  unfold strip_query, split_sep.
  destruct (split_sep_go_first "?" "" s) as (w & t & l & _ & Hno & ->).
  rewrite append_nil_l. cbn. intros [= <-].
  fold (split_sep "?" w).
  now rewrite (split_sep_no_match _ _ (no_match_in_weaken _ _ _ Hno)).
Qed.

(** C7 (amended): the round trip holds for every base that neither contains
    the marker ["/track/"] nor ends in ["/track"] (so that the first marker of
    the URL is the one after the base); applied to the identifier it returned,
    the extraction finds no marker and returns nothing, and only its
    query-stripping step [split("?")[0]] is idempotent. *)
Theorem track_id_round_trip (base id suffix : string) :
  contains "/track/" base = false ->
  endswith base "/track" = false ->
  contains "/track/" id = false ->
  contains "?" id = false ->
  extract_track_id (base +:+ "/track/" +:+ id +:+ "?" +:+ suffix) = Some id
  /\ extract_track_id id = None
  /\ strip_query id = Some id
  /\ (forall s r, strip_query s = Some r -> strip_query r = Some r).
Proof.
  intros Hbase Hend Hid Hq. split; [now apply extract_track_id_built|].
  split; [now apply extract_track_id_of_id|].
  split; [|exact strip_query_idempotent].
  apply (strip_query_idempotent (id +:+ "?" +:+ "")).
  now apply strip_query_at.
Qed.

Lemma track_id_round_trip_witness :
  extract_track_id ("https://open.spotify.com" +:+ "/track/" +:+ "4uLU6hMCjMI75M1A2tKUQC"
                    +:+ "?" +:+ "si=abc") = Some "4uLU6hMCjMI75M1A2tKUQC".
Proof.
  apply (track_id_round_trip "https://open.spotify.com" "4uLU6hMCjMI75M1A2tKUQC" "si=abc");
    reflexivity.
Defined.

(** C7 as stated fails: a base ending in ["/track"] contains no marker, yet
    the first marker of the URL then starts inside the base; and extracting
    from an extracted identifier returns nothing. *)
Lemma track_id_round_trip_counterexample :
  contains "/track/" "x/track" = false /\
  contains "/track/" "id" = false /\ contains "?" "id" = false /\
  extract_track_id ("x/track" +:+ "/track/" +:+ "id" +:+ "?" +:+ "s") = Some "track/id" /\
  extract_track_id "https://open.spotify.com/track/abc?si=1" = Some "abc" /\
  extract_track_id "abc" = None.
Proof. repeat split; reflexivity. Qed.

(** ** Duration display *)

Example format_duration_185000 : format_duration 185000 = "3:05".
Proof. reflexivity. Qed.

Example format_duration_over_an_hour : format_duration 3661000 = "61:01".
Proof. reflexivity. Qed.

Example format_duration_zero : format_duration 0 = "0:00".
Proof. reflexivity. Qed.

(** Below sixty the [:02d] field is exactly the two decimal digits. *)
Lemma format_02d_two_digits (s : Z) :
  0 <= s < 60 -> format_02d s = two_digits s.
Proof.
  intros Hs.
  assert (Hall : forallb (fun n => String.eqb (format_02d (Z.of_nat n)) (two_digits (Z.of_nat n)))
                   (seq 0 60) = true) by (vm_compute; reflexivity).
  rewrite forallb_forall in Hall.
  specialize (Hall (Z.to_nat s)).
  rewrite Z2Nat.id in Hall by lia.
  apply String.eqb_eq, Hall, in_seq. lia.
Qed.

(** C9: the duration shown is the minutes [duration_ms div 60000], a colon and
    the seconds [(duration_ms div 1000) mod 60] as two digits; there is no
    hours field, so from one hour on the minutes field is 60 or more. *)
Theorem format_duration_spec (duration_ms : Z) :
  format_duration duration_ms
  = py_str_int (duration_ms / 60000) +:+ ":" +:+ two_digits ((duration_ms / 1000) mod 60)
  /\ 0 <= (duration_ms / 1000) mod 60 < 60
  /\ format_duration 185000 = "3:05"
  /\ format_duration 3661000 = "61:01"
  /\ (3600000 <= duration_ms -> 60 <= duration_ms / 60000).
Proof.
  assert (Hsec : 0 <= (duration_ms / 1000) mod 60 < 60) by (apply Z.mod_pos_bound; lia).
  split; [|split; [exact Hsec|]].
  - unfold format_duration. now rewrite format_02d_two_digits.
  - split; [reflexivity|]. split; [reflexivity|].
    intros Hlong. apply Z.div_le_lower_bound; lia.
Qed.

Lemma format_duration_spec_witness :
  3600000 <= 3661000 /\ 60 <= 3661000 / 60000.
Proof.
  split; [lia|].
  apply (proj2 (proj2 (proj2 (proj2 (format_duration_spec 3661000))))). lia.
Defined.

(** ** Relations preserved by the monad *)

Section Preservation.
Variable R : World -> World -> Prop.
Hypothesis R_refl : forall w, R w w.
Hypothesis R_trans : forall w1 w2 w3, R w1 w2 -> R w2 w3 -> R w1 w3.
Hypothesis R_tick : forall w, R w (mkWorld (files w) (chat w) (log w) (S (tick w))).

Lemma preserves_ret {A} (a : A) : preserves R (ret a).
Proof. intros w. apply R_refl. Qed.

Lemma preserves_raise {A} (e : exn) : preserves R (@raise A e).
Proof. intros w. apply R_refl. Qed.

Lemma preserves_get_files : preserves R get_files.
Proof. intros w. apply R_refl. Qed.

Lemma preserves_lift {A} (r : Result A) : preserves R (lift r).
Proof. intros w. destruct r; apply R_refl. Qed.

Lemma preserves_consult {A} (oracle : nat -> A) : preserves R (consult oracle).
Proof. intros w. apply R_tick. Qed.

Lemma preserves_bind {A B} (m : M A) (k : A -> M B) :
  preserves R m -> (forall a, preserves R (k a)) -> preserves R (bind m k).
Proof.
  intros Hm Hk w. unfold bind. specialize (Hm w).
  destruct (m w) as [[a|e] w1]; cbn in *; [|exact Hm].
  eapply R_trans; [exact Hm | apply Hk].
Qed.

(** The handle [open] returns is a handle on the path it was given. *)
Lemma preserves_open_rb_bind {B} (env : Env) (path : string) (k : string * File -> M B) :
  (forall f, preserves R (k (path, f))) -> preserves R (bind (open_rb env path) k).
Proof.
  intros Hk w. unfold bind, open_rb, bind, get_files. cbn.
  destruct (files w !! path) as [f|]; cbn; [apply Hk | apply R_refl].
Qed.

Lemma preserves_try_except {A} (body : M A) (handler : exn -> M A) :
  preserves R body -> (forall e, preserves R (handler e)) ->
  preserves R (try_except body handler).
Proof.
  intros Hb Hh w. unfold try_except. specialize (Hb w).
  destruct (body w) as [[a|e] w1]; cbn in *; [exact Hb|].
  eapply R_trans; [exact Hb | apply Hh].
Qed.
End Preservation.

Lemma grows_refl P w : grows P w w.
Proof. exists []. now rewrite app_nil_r. Qed.

Lemma grows_trans P w1 w2 w3 : grows P w1 w2 -> grows P w2 w3 -> grows P w1 w3.
Proof.
  intros (e1 & H1 & F1) (e2 & H2 & F2). exists (e1 ++ e2).
  split; [now rewrite H2, H1, app_assoc | now apply Forall_app].
Qed.

Lemma grows_one (P : Event -> Prop) w w' ev :
  log w' = log w ++ [ev] -> P ev -> grows P w w'.
Proof. intros Hlog Hev. exists [ev]. split; [exact Hlog | now constructor]. Qed.

Lemma grows_same (P : Event -> Prop) w w' : log w' = log w -> grows P w w'.
Proof. intros Hlog. exists []. now rewrite app_nil_r. Qed.

Lemma grows_weaken (P Q : Event -> Prop) w w' :
  (forall ev, P ev -> Q ev) -> grows P w w' -> grows Q w w'.
Proof.
  intros HPQ (evs & Hlog & Hall). exists evs. split; [exact Hlog|].
  eapply Forall_impl; eauto.
Qed.

Lemma grows_new_events P w w' : grows P w w' -> Forall P (new_events w w').
Proof.
  intros (evs & Hlog & Hall). unfold new_events.
  now rewrite Hlog, drop_app_length.
Qed.

Lemma same_files_trans w1 w2 w3 : same_files w1 w2 -> same_files w2 w3 -> same_files w1 w3.
Proof. unfold same_files. congruence. Qed.

Lemma same_chat_trans w1 w2 w3 : same_chat w1 w2 -> same_chat w2 w3 -> same_chat w1 w3.
Proof. unfold same_chat. congruence. Qed.

Lemma same_audio_trans w1 w2 w3 :
  same_audio w1 w2 -> same_audio w2 w3 -> same_audio w1 w3.
Proof. unfold same_audio. intros H12 H23 p. now rewrite H23, H12. Qed.

Lemma same_files_refl w : same_files w w.
Proof. reflexivity. Qed.

Lemma same_chat_refl w : same_chat w w.
Proof. reflexivity. Qed.

Lemma same_audio_refl w : same_audio w w.
Proof. intros p. reflexivity. Qed.

Create HintDb frame.
#[local] Hint Resolve grows_refl grows_trans same_files_trans same_chat_trans
  same_audio_trans : frame.
#[local] Hint Extern 1 (grows _ _ (mkWorld _ _ _ _)) =>
  (apply grows_same; reflexivity) : frame.
#[local] Hint Extern 2 (grows _ _ (mkWorld _ _ _ _)) =>
  (eapply grows_one; [reflexivity | cbn; auto]) : frame.
#[local] Hint Extern 1 (same_files _ _) => reflexivity : frame.
#[local] Hint Extern 1 (same_chat _ _) => reflexivity : frame.
#[local] Hint Extern 1 (same_audio _ _) => (intros ?; reflexivity) : frame.

(** One step of a preservation proof: split the program at its binds and
    handlers, and split on what an oracle or a lookup returned. *)
Ltac frame_law :=
  first
    [ exact (grows_refl _) | exact (grows_trans _)
    | exact same_files_refl | exact same_files_trans
    | exact same_chat_refl | exact same_chat_trans
    | exact same_audio_refl | exact same_audio_trans ].

Ltac preserve_step :=
  first
    [ frame_law
    | apply preserves_ret
    | apply preserves_raise
    | apply preserves_get_files
    | apply preserves_lift
    | apply preserves_consult
    | apply preserves_bind; [..|intros ?]
    | apply preserves_try_except; [..|intros ?]
    | progress auto with frame
    | case_match
    | (intros ?; cbn; auto with frame; fail) ].

Ltac preserve := repeat preserve_step.

(** The same, with the lemmas already proved for parts of the program tried
    first. *)
Tactic Notation "preserve" "using" tactic3(known) :=
  repeat first [ known | preserve_step ].

Section Primitives.
Variable env : Env.
Variable P : Event -> Prop.

Lemma record_grows ev : P ev -> preserves (grows P) (record ev).
Proof. intros Hev w. cbn. eapply grows_one; [reflexivity | exact Hev]. Qed.

Lemma reply_text_grows text :
  (forall id, P (EvReply id text)) -> preserves (grows P) (reply_text env text).
Proof. intros Hev. unfold reply_text, post. preserve. Qed.

Lemma edit_text_grows id text :
  P (EvEdit id text) -> preserves (grows P) (edit_text env id text).
Proof. intros Hev. unfold edit_text, set_message. preserve. Qed.

Lemma reply_photo_grows photo caption :
  (forall id, P (EvPhoto id photo caption)) ->
  preserves (grows P) (reply_photo env photo caption).
Proof. intros Hev. unfold reply_photo, post. preserve. Qed.

Lemma reply_audio_grows audio title :
  (forall id, P (EvAudio id audio.1 title)) ->
  preserves (grows P) (reply_audio env audio title).
Proof. intros Hev. unfold reply_audio, post. preserve. Qed.
End Primitives.

(** ** Free text and commands *)

Lemma scan_words_find (test : string -> bool) (action : string -> M unit) (words : list string) :
  scan_words test action words
  = match List.find test words with
    | Some word => action word
    | None => ret tt
    end.
Proof. induction words as [|x l IH]; cbn; [reflexivity|]. now destruct (test x). Qed.

Lemma existsb_find {A} (test : A -> bool) (l : list A) :
  existsb test l = match List.find test l with Some _ => true | None => false end.
Proof. induction l as [|x l IH]; cbn; [reflexivity|]. now destruct (test x). Qed.

Lemma existsb_or {A} (f g : A -> bool) (l : list A) :
  existsb (fun x => f x || g x) l = existsb f l || existsb g l.
Proof.
  induction l as [|x l IH]; cbn; [reflexivity|]. rewrite IH.
  destruct (f x), (g x), (existsb f l), (existsb g l); reflexivity.
Qed.

(** A video marker in the text is a video marker in one of its words. *)
Lemma video_marker_in_words (text : string) :
  contains "youtube.com" text || contains "youtu.be" text
  = existsb is_video_word (split_ws text).
Proof.
  unfold is_video_word. rewrite existsb_or.
  now rewrite <- !contains_split_ws by (reflexivity || discriminate).
Qed.

Lemma track_marker_in_words (text : string) :
  contains "spotify.com/track" text = existsb is_track_word (split_ws text).
Proof. unfold is_track_word. now rewrite <- contains_split_ws by (reflexivity || discriminate). Qed.

(** C5 (amended): the handler acts on the first word holding a video-host
    marker whenever the message has one, wherever the catalog links stand;
    only without any video word does it act on the first word holding the
    catalog-track marker; without either it replies with the usage hint. *)
Theorem handle_message_dispatch (env : Env) (text : string) :
  handle_message env text
  = match List.find is_video_word (split_ws text) with
    | Some word => download_from_youtube env (Some word) None
    | None =>
        match List.find is_track_word (split_ws text) with
        | Some word => get_spotify_info env word
        | None => (reply_text env msg_usage;; ret tt)%handler
        end
    end.
Proof.
  unfold handle_message.
  rewrite video_marker_in_words, track_marker_in_words, !scan_words_find, !existsb_find.
  destruct (List.find is_video_word (split_ws text)); [reflexivity|].
  now destruct (List.find is_track_word (split_ws text)).
Qed.

(** A link set off by a no-break space is the word acted on, not the whole
    text. *)
Example handle_message_no_break_space (env : Env) :
  handle_message env ("see" +:+ no_break_space +:+ "https://youtu.be/abc")
  = download_from_youtube env (Some "https://youtu.be/abc") None.
Proof. reflexivity. Qed.

(** C5 as stated fails: the first recognised word of this message is the
    catalog link, yet the video link behind it is the one downloaded and the
    catalog is never asked. *)
Lemma handle_message_counterexample :
  let text := "https://open.spotify.com/track/abc https://youtu.be/xyz" in
  first_recognized text = Some "https://open.spotify.com/track/abc" /\
  is_track_word "https://open.spotify.com/track/abc" = true /\
  handle_message all_up text fresh_world
  = download_from_youtube all_up (Some "https://youtu.be/xyz") None fresh_world /\
  log (handle_message all_up text fresh_world).2
  <> log (get_spotify_info all_up "https://open.spotify.com/track/abc" fresh_world).2.
Proof.
  cbv zeta. repeat split; try (vm_compute; reflexivity).
  intros Heq. vm_compute in Heq. discriminate Heq.
Qed.

(** ** Run equations *)

Lemma bind_ok {A B} (m : M A) (k : A -> M B) w a w' :
  m w = (Ok a, w') -> bind m k w = k a w'.
Proof. intros H. unfold bind. now rewrite H. Qed.

Lemma bind_raise {A B} (m : M A) (k : A -> M B) w e w' :
  m w = (Raise e, w') -> bind m k w = (Raise e, w').
Proof. intros H. unfold bind. now rewrite H. Qed.

Lemma try_except_ok {A} (body : M A) handler w a w' :
  body w = (Ok a, w') -> try_except body handler w = (Ok a, w').
Proof. intros H. unfold try_except. now rewrite H. Qed.

Lemma try_except_raise {A} (body : M A) handler w e w' :
  body w = (Raise e, w') -> try_except body handler w = handler e w'.
Proof. intros H. unfold try_except. now rewrite H. Qed.

Lemma try_except_record_bind {A B} (ev : Event) (k1 : unit -> M A) (k2 : A -> M B)
    handler w :
  try_except (bind (bind (record ev) k1) k2) handler w
  = try_except (bind (k1 tt) k2) handler
      (mkWorld (files w) (chat w) (log w ++ [ev]) (tick w)).
Proof. reflexivity. Qed.

Lemma try_except_bind_ok {A B} (m : M A) (k : A -> M B) handler w a w' :
  m w = (Ok a, w') -> try_except (bind m k) handler w = try_except (k a) handler w'.
Proof. intros H. unfold try_except, bind. now rewrite H. Qed.

Section RunEquations.
Variable env : Env.

Lemma reply_text_ok text w :
  telegram env (tick w) = None ->
  reply_text env text w
  = (Ok (length (chat w)),
     mkWorld (files w) (chat w ++ [MText text])
       (log w ++ [EvReply (length (chat w)) text]) (S (tick w))).
Proof. intros H. unfold reply_text, bind, consult. cbn. now rewrite H. Qed.

Lemma edit_text_ok id text w :
  telegram env (tick w) = None ->
  edit_text env id text w
  = (Ok tt,
     mkWorld (files w) (<[id := MText text]> (chat w))
       (log w ++ [EvEdit id text]) (S (tick w))).
Proof. intros H. unfold edit_text, bind, consult. cbn. now rewrite H. Qed.

Lemma reply_audio_ok audio title w :
  telegram env (tick w) = None ->
  reply_audio env audio title w
  = (Ok tt,
     mkWorld (files w) (chat w ++ [MAudio audio.2 title])
       (log w ++ [EvAudio (length (chat w)) audio.1 title]) (S (tick w))).
Proof. intros H. unfold reply_audio, bind, consult. cbn. now rewrite H. Qed.

Lemma reply_audio_fail audio title w e :
  telegram env (tick w) = Some e ->
  reply_audio env audio title w
  = (Raise e, mkWorld (files w) (chat w) (log w) (S (tick w))).
Proof. intros H. unfold reply_audio, bind, consult. cbn. now rewrite H. Qed.

Lemma open_rb_ok path f w :
  files w !! path = Some f -> open_rb env path w = (Ok (path, f), w).
Proof. intros H. unfold open_rb, bind, get_files. cbn. now rewrite H. Qed.

Lemma os_remove_ok path f w :
  files w !! path = Some f ->
  os_remove env path w
  = (Ok tt, mkWorld (delete path (files w)) (chat w) (log w ++ [EvRemove path]) (tick w)).
Proof. intros H. unfold os_remove, bind, get_files. cbn. now rewrite H. Qed.

Lemma write_files_run written w :
  write_files written w
  = (Ok tt,
     mkWorld (with_written (files w) written) (chat w)
       (log w ++ map (fun pf => EvWrite pf.1) written) (tick w)).
Proof.
  revert w. induction written as [|[p f] l IH]; intros w.
  - cbn. rewrite app_nil_r. now destruct w.
  - cbn [write_files]. unfold bind. cbn. rewrite IH. cbn.
    now rewrite <- app_assoc.
Qed.

Lemma extract_info_download_ok url a w :
  ytdl env (tick w) url true = Ok a ->
  extract_info env url true w
  = (Ok (yt_info a),
     mkWorld (with_written (files w) (yt_written a)) (chat w)
       (log w ++ EvExtract url true :: map (fun pf => EvWrite pf.1) (yt_written a))
       (S (tick w))).
Proof.
  intros H. unfold extract_info, bind, record, consult. cbn. rewrite H.
  rewrite write_files_run. cbn. now rewrite <- app_assoc.
Qed.

Lemma extract_info_download_raise url e w :
  ytdl env (tick w) url true = Raise e ->
  extract_info env url true w
  = (Raise e,
     mkWorld (with_written (files w) (ytdl_debris env (tick w) url)) (chat w)
       (log w ++ EvExtract url true
              :: map (fun pf => EvWrite pf.1) (ytdl_debris env (tick w) url))
       (S (tick w))).
Proof.
  intros H. unfold extract_info, bind, record, consult. cbn. rewrite H.
  rewrite write_files_run. cbn. now rewrite <- app_assoc.
Qed.

Lemma extract_info_search_raise url e w :
  ytdl env (tick w) url false = Raise e ->
  extract_info env url false w
  = (Raise e,
     mkWorld (files w) (chat w) (log w ++ [EvExtract url false]) (S (tick w))).
Proof. intros H. unfold extract_info, bind, record, consult. cbn. now rewrite H. Qed.

End RunEquations.

(** ** Cleanup after a failed send *)

(** C1 (the code breaks it): when the download wrote the artifact and the
    status edit went through but sending the audio raises, the handler logs
    and reports the error and returns with the artifact still in the
    download directory: [os.remove] stands after the send inside the [try]
    and is skipped. *)
Theorem send_failure_leaves_artifact (env : Env) (url : option string) (w : World)
    (a : YtAnswer) (f : File) (e : exn) :
  let path := artifact_path (default "Unknown Title" (yt_title (yt_info a))) in
  telegram env (tick w) = None ->
  ytdl env (S (tick w)) url true = Ok a ->
  yt_written a = [(path, f)] ->
  telegram env (S (S (tick w))) = None ->
  telegram env (S (S (S (tick w)))) = Some e ->
  let r := download_from_youtube env url None w in
  files r.2 !! path = Some f /\
  List.existsb (fun ev => match ev with EvRemove _ => true | _ => false end)
    (new_events w r.2) = false.
Proof.
  intros path Hstatus Hdl Hwritten Hedit Hsend r. subst r.
  unfold download_from_youtube.
  rewrite (bind_ok _ _ _ _ _ (reply_text_ok env _ w Hstatus)).
  unfold download_body.
  erewrite try_except_bind_ok by (apply extract_info_download_ok; exact Hdl).
  cbn [metadata_given]. fold path. rewrite Hwritten. cbn [with_written foldl map fst snd].
  erewrite try_except_bind_ok by reflexivity.
  erewrite try_except_bind_ok by (apply edit_text_ok; exact Hedit).
  erewrite try_except_bind_ok by (apply open_rb_ok; cbn; apply lookup_insert_eq).
  erewrite try_except_raise
    by (apply bind_raise; apply reply_audio_fail; exact Hsend).
  unfold bind, logger_error, record, edit_text, bind, consult. cbn.
  unfold new_events.
  destruct (telegram env (S (S (S (S (tick w)))))) as [e'|]; cbn;
    rewrite lookup_insert_eq; (split; [reflexivity|]);
    rewrite <- ?app_assoc, drop_app_length; reflexivity.
Qed.

Lemma send_failure_leaves_artifact_witness :
  files (download_from_youtube (telegram_down_at 3) (Some "https://youtu.be/abc") None
           fresh_world).2 !! "downloads/Song.mp3"
  = Some (mkFile "mp3 bytes" None).
Proof.
  exact (proj1 (send_failure_leaves_artifact (telegram_down_at 3)
                  (Some "https://youtu.be/abc") fresh_world
                  (mkYtAnswer (mkYtInfo (Some "Song") None)
                     [("downloads/Song.mp3", mkFile "mp3 bytes" None)])
                  (mkFile "mp3 bytes" None) "Timed out"
                  eq_refl eq_refl eq_refl eq_refl eq_refl)).
Defined.

(** ** Tag enrichment *)

#[local] Arguments set_basic_tags : simpl never.
#[local] Arguments set_front_cover : simpl never.

Lemma text_frame_kept (env : Env) (v : pyval) (kept : option string) :
  text_frame env v = Ok kept ->
  kept = kept_text v /\ (kept = None <-> truthy v = false).
Proof.
  destruct v as [|text|n]; cbn; intros [= <-]; [now split|].
  destruct (String.eqb text ""); now split.
Qed.

Lemma dict_get_album_artist (metadata : gmap string pyval) :
  dict_get metadata "album_artist" (dict_get metadata "artist" (VStr "Unknown Artist"))
  = album_artist_wanted metadata.
Proof. reflexivity. Qed.

(** What the assignments of lines 164-173 leave in the tag when none of them
    raises. *)
Lemma set_basic_tags_ok (env : Env) (tag basic : Tag) (metadata : gmap string pyval) :
  set_basic_tags env tag metadata = Ok basic ->
  text_frame env (dict_get metadata "title" (VStr "Unknown Title")) = Ok (tag_title basic) /\
  text_frame env (dict_get metadata "artist" (VStr "Unknown Artist"))
  = Ok (tag_artist basic) /\
  text_frame env (dict_get metadata "album" (VStr "Unknown Album")) = Ok (tag_album basic) /\
  text_frame env (album_artist_wanted metadata) = Ok (tag_album_artist basic) /\
  tag_images basic = tag_images tag.
Proof.
  unfold set_basic_tags, and_then. rewrite dict_get_album_artist.
  destruct (text_frame env (dict_get metadata "title" _)); [|discriminate].
  destruct (text_frame env (dict_get metadata "artist" _)); [|discriminate].
  destruct (text_frame env (dict_get metadata "album" _)); [|discriminate].
  destruct (text_frame env (album_artist_wanted metadata)); [|discriminate].
  destruct (match metadata !! "year" with Some _ => _ | None => _ end); [|discriminate].
  destruct (match metadata !! "track_number" with Some _ => _ | None => _ end);
    [|discriminate].
  intros [= <-]. now repeat split.
Qed.

Lemma set_front_cover_ok (env : Env) (tag covered : Tag) (image_data : string) :
  set_front_cover env tag image_data = Ok covered ->
  image_data <> "" /\
  covered
  = mkTag (tag_title tag) (tag_artist tag) (tag_album tag) (tag_album_artist tag)
      (tag_recording_date tag) (tag_track_num tag)
      (set_image (tag_images tag) (mkImage FRONT_COVER image_data "image/jpeg" "")).
Proof.
  unfold set_front_cover. destruct (String.eqb_spec image_data ""); [discriminate|].
  intros [= <-]. now split.
Qed.

(** A tagging body that returns has loaded the file, made every assignment
    of lines 164-173, set the cover when the cover server answered 200, and
    saved that tag in the file. *)
Lemma add_id3_tags_body_saved (env : Env) (path : string) (metadata : gmap string pyval)
    (w w' : World) :
  add_id3_tags_body env path metadata w = (Ok tt, w') ->
  exists f basic tag,
    files w !! path = Some f /\
    set_basic_tags env (default empty_tag (f_tag f)) metadata = Ok basic /\
    (tag = basic \/ exists image_data, set_front_cover env basic image_data = Ok tag) /\
    files w' = <[path := mkFile (f_audio f) (Some tag)]> (files w) /\
    chat w' = chat w.
Proof.
  unfold add_id3_tags_body, eyed3_load_file, requests_get, save_tag, lift, bind, record,
    consult, get_files, set_files, raise, ret.
  cbn.
  destruct (files w !! path) as [f|] eqn:Hfile; [|discriminate]. cbn.
  destruct (eyed3_load env (tick w) path); try discriminate. cbn.
  change (match f_tag f with Some t => t | None => empty_tag end)
    with (default empty_tag (f_tag f)).
  destruct (set_basic_tags env (default empty_tag (f_tag f)) metadata) as [basic|]
    eqn:Hbasic; [|discriminate].
  cbn. intros Hrun. exists f, basic.
  assert (Hfiles : forall tag,
    alter (fun f0 => mkFile (f_audio f0) (Some tag)) path (files w)
    = <[path := mkFile (f_audio f) (Some tag)]> (files w)).
  { intros tag. apply map_eq. intros q. destruct (decide (path = q)) as [<-|Hne].
    - now rewrite lookup_alter_eq, lookup_insert_eq, Hfile.
    - now rewrite lookup_alter_ne, lookup_insert_ne. }
  revert Hrun.
  repeat (case_match; simplify_eq/=); intros; simplify_eq/=;
    eexists; (split; [reflexivity|]); (split; [exact Hbasic|]);
    (split; [|split; [apply Hfiles | reflexivity]]);
    first [ left; reflexivity | right; eexists; eassumption ].
Qed.

(** C10 (amended): whenever the tagging body runs to its end, the album
    artist of the saved tag is what eyed3 keeps of the value chosen by the
    fallback: the album-artist entry of the metadata, the artist entry when
    there is none, ["Unknown Artist"] when both are absent. So without an
    album-artist entry a non-empty artist string is the album artist, and
    without both entries it is ["Unknown Artist"]; the album artist is left
    unset exactly when the chosen value is [None] or the empty string. *)
Theorem album_artist_fallback (env : Env) (path : string) (metadata : gmap string pyval)
    (w w' : World) :
  add_id3_tags_body env path metadata w = (Ok tt, w') ->
  exists f tag,
    files w' !! path = Some f /\ f_tag f = Some tag /\
    tag_album_artist tag = kept_text (album_artist_wanted metadata) /\
    (forall artist,
       metadata !! "album_artist" = None -> metadata !! "artist" = Some (VStr artist) ->
       artist <> "" -> tag_album_artist tag = Some artist) /\
    (metadata !! "album_artist" = None -> metadata !! "artist" = None ->
     tag_album_artist tag = Some "Unknown Artist") /\
    (tag_album_artist tag = None <-> truthy (album_artist_wanted metadata) = false).
Proof.
  intros Hrun.
  apply add_id3_tags_body_saved in Hrun
    as (f & basic & tag & Hfile & Hbasic & Hcover & Hfiles & _).
  exists (mkFile (f_audio f) (Some tag)), tag.
  split; [now rewrite Hfiles, lookup_insert_eq|]. split; [reflexivity|].
  apply set_basic_tags_ok in Hbasic as (_ & _ & _ & Hartist & _).
  apply text_frame_kept in Hartist as [Hkept Hunset].
  assert (Hsame : tag_album_artist tag = tag_album_artist basic).
  { destruct Hcover as [->|[image_data Hset]]; [reflexivity|].
    apply set_front_cover_ok in Hset as [_ ->]. reflexivity. }
  rewrite Hsame. split; [exact Hkept|]. split; [|split; [|exact Hunset]].
  - intros artist Hnone Hsome Hne. rewrite Hkept.
    unfold album_artist_wanted. rewrite Hnone, Hsome. cbn.
    now destruct (String.eqb_spec artist "").
  - intros Hnone Hnone'. rewrite Hkept.
    unfold album_artist_wanted. now rewrite Hnone, Hnone'.
Qed.

Lemma album_artist_fallback_witness :
  exists f tag,
    files (add_id3_tags_body all_up "downloads/Song.mp3"
             {["artist" := VStr "Ann, Bob"]}
             (mkWorld {["downloads/Song.mp3" := mkFile "mp3 bytes" None]} [] [] 0)).2
      !! "downloads/Song.mp3" = Some f /\
    f_tag f = Some tag /\
    tag_album_artist tag = Some "Ann, Bob".
Proof.
  set (w := mkWorld {["downloads/Song.mp3" := mkFile "mp3 bytes" None]} [] [] 0).
  assert (Hrun : add_id3_tags_body all_up "downloads/Song.mp3"
                   {["artist" := VStr "Ann, Bob"]} w
                 = (Ok tt, (add_id3_tags_body all_up "downloads/Song.mp3"
                              {["artist" := VStr "Ann, Bob"]} w).2))
    by (vm_compute; reflexivity).
  destruct (album_artist_fallback all_up "downloads/Song.mp3"
              {["artist" := VStr "Ann, Bob"]} w _ Hrun)
    as (f & tag & Hfile & Htag & _ & Hartist & _).
  exists f, tag. split; [exact Hfile|]. split; [exact Htag|].
  apply (Hartist "Ann, Bob"); [reflexivity | reflexivity | discriminate].
Defined.

(** C10 as stated fails: for an album without artists the catalog stage
    joins an empty list into the empty string (line 206) and stores it under
    ['album_artist']; tagging succeeds, the title is written, and the album
    artist of the saved tag is left unset although the artist is known. *)
Lemma album_artist_counterexample :
  let metadata := build_metadata "Song" "Ann, Bob" "Album" "" None 4 (Some 2021) in
  let r := add_id3_tags_body all_up "downloads/Song.mp3" metadata one_file_world in
  metadata !! "album_artist" = Some (VStr "") /\
  metadata !! "artist" = Some (VStr "Ann, Bob") /\
  r.1 = Ok tt /\
  exists f tag,
    files r.2 !! "downloads/Song.mp3" = Some f /\ f_tag f = Some tag /\
    tag_title tag = Some "Song" /\
    tag_album_artist tag = None.
Proof.
  cbv zeta. split; [reflexivity|]. split; [reflexivity|]. split; [reflexivity|].
  eexists _, _. split; [vm_compute; reflexivity|]. now repeat split.
Qed.

Lemma metadata_given_nonempty (metadata : gmap string pyval) (key : string) (v : pyval) :
  metadata !! key = Some v -> metadata_given (Some metadata) = Some metadata.
Proof.
  intros Hkey. unfold metadata_given. case_decide as Hempty; [|reflexivity].
  rewrite Hempty, lookup_empty in Hkey. discriminate.
Qed.

Section Tagging.
Variable env : Env.
Variables (path : string) (metadata : gmap string pyval).

Lemma save_tag_same_audio tag : preserves same_audio (save_tag env path tag).
Proof.
  intros w q. unfold save_tag, bind, consult, get_files, set_files, record. cbn.
  destruct (tag_save env (tick w) path); cbn; [reflexivity|].
  destruct (decide (path = q)) as [->|Hne].
  - rewrite lookup_alter_eq. now destruct (files w !! q).
  - now rewrite lookup_alter_ne.
Qed.

Lemma add_id3_tags_same_audio : preserves same_audio (add_id3_tags env path metadata).
Proof.
  unfold add_id3_tags, add_id3_tags_body, eyed3_load_file, requests_get, logger_error.
  preserve using (apply save_tag_same_audio).
Qed.

Lemma add_id3_tags_same_chat : preserves same_chat (add_id3_tags env path metadata).
Proof.
  unfold add_id3_tags, add_id3_tags_body, eyed3_load_file, requests_get, logger_error,
    save_tag.
  preserve.
Qed.

Lemma add_id3_tags_grows (P : Event -> Prop) :
  (forall ev, is_tagging_event ev = true -> P ev) ->
  preserves (grows P) (add_id3_tags env path metadata).
Proof.
  intros HP.
  unfold add_id3_tags, add_id3_tags_body, eyed3_load_file, requests_get, logger_error,
    save_tag.
  preserve.
Qed.

(** Whatever eyed3, the cover server and the disk do, [add_id3_tags]
    returns normally. *)
Lemma add_id3_tags_returns (w : World) : (add_id3_tags env path metadata w).1 = Ok tt.
Proof.
  unfold add_id3_tags, try_except.
  destruct (add_id3_tags_body env path metadata w) as [[[]|e] w1]; reflexivity.
Qed.
End Tagging.

(** C3: no failure of tag enrichment leaves [add_id3_tags]; with the services
    of enrichment (eyed3, the cover server, the tag write) behaving in any
    way at all, a downloaded artifact is announced, sent with its audio bytes
    untouched, and then removed. *)
Theorem tagging_never_aborts_delivery (env : Env) (url : option string)
    (metadata : gmap string pyval) (w : World) (a : YtAnswer) (f : File) (title : pyval) :
  let path := artifact_path (default "Unknown Title" (yt_title (yt_info a))) in
  let status := length (chat w) in
  (forall n, telegram env n = None) ->
  ytdl env (S (tick w)) url true = Ok a ->
  yt_written a = [(path, f)] ->
  metadata !! "title" = Some title ->
  (forall p w0, (add_id3_tags env p metadata w0).1 = Ok tt) /\
  let r := download_from_youtube env url (Some metadata) w in
  r.1 = Ok tt /\
  files r.2 !! path = None /\
  exists tagging sent,
    Forall (fun ev => is_tagging_event ev = true) tagging /\
    new_events w r.2
    = [EvReply status msg_downloading; EvExtract url true; EvWrite path] ++ tagging ++
      [EvEdit status (msg_downloaded (py_str title));
       EvAudio (S status) path (py_str title);
       EvRemove path] /\
    chat r.2
    = <[status := MText (msg_downloaded (py_str title))]> (chat w ++ [MText msg_downloading])
      ++ [MAudio sent (py_str title)] /\
    f_audio sent = f_audio f.
Proof.
  intros path status Hup Hdl Hwritten Htitle.
  split; [intros p w0; apply add_id3_tags_returns|].
  intros r. subst r. unfold download_from_youtube.
  rewrite (bind_ok _ _ _ _ _ (reply_text_ok env _ w (Hup _))).
  unfold download_body.
  erewrite try_except_bind_ok by (apply extract_info_download_ok; exact Hdl).
  rewrite (metadata_given_nonempty _ _ _ Htitle), Htitle.
  fold path. rewrite Hwritten. cbn [with_written foldl map fst snd].
  set (w1 := mkWorld _ _ _ _).
  pose proof (add_id3_tags_returns env path metadata w1) as Hret.
  pose proof (add_id3_tags_same_audio env path metadata w1 path) as Haudio.
  pose proof (add_id3_tags_same_chat env path metadata w1) as Hchat.
  pose proof (add_id3_tags_grows env path metadata
                (fun ev => is_tagging_event ev = true) (fun _ H => H) w1)
    as (tagging & Hlog & Htagging).
  destruct (add_id3_tags env path metadata w1) as [res w2] eqn:Hrun.
  cbn in Hret, Haudio, Hchat, Hlog. subst res.
  unfold same_chat in Hchat. subst w1. cbn in Haudio, Hchat, Hlog.
  rewrite lookup_insert_eq in Haudio.
  destruct (files w2 !! path) as [sent|] eqn:Hsent; [|discriminate].
  injection Haudio as Haudio.
  erewrite try_except_bind_ok by (erewrite bind_ok by exact Hrun; reflexivity).
  erewrite try_except_bind_ok by (apply edit_text_ok, Hup).
  erewrite try_except_bind_ok by (apply open_rb_ok; exact Hsent).
  erewrite try_except_bind_ok by (apply reply_audio_ok, Hup).
  erewrite try_except_ok by (eapply os_remove_ok; exact Hsent).
  cbn. rewrite lookup_delete_eq.
  split; [reflexivity|]. split; [reflexivity|].
  exists tagging, sent. split; [exact Htagging|].
  rewrite Hchat, Hlog. unfold new_events.
  rewrite length_insert, length_app. cbn [length].
  replace (length (chat w) + 1)%nat with (S status) by (unfold status; lia).
  repeat split; [|exact Haudio].
  cbn [log]. rewrite <- !app_assoc. rewrite drop_app_length. reflexivity.
Qed.

Lemma tagging_never_aborts_delivery_witness :
  let r := download_from_youtube cover_unreachable (Some "https://youtu.be/found")
             (Some (<["cover_url" := VStr "https://i.scdn.co/image/cover"]> sample_metadata))
             fresh_world in
  r.1 = Ok tt /\ files r.2 !! "downloads/Song.mp3" = None.
Proof.
  pose proof (tagging_never_aborts_delivery cover_unreachable (Some "https://youtu.be/found")
                (<["cover_url" := VStr "https://i.scdn.co/image/cover"]> sample_metadata)
                fresh_world
                (mkYtAnswer (mkYtInfo (Some "Song") None)
                   [("downloads/Song.mp3", mkFile "mp3 bytes" None)])
                (mkFile "mp3 bytes" None) (VStr "Song")
                (fun _ => eq_refl) eq_refl eq_refl eq_refl) as [_ H].
  cbv zeta in H |- *. destruct H as (Hret & Hgone & _). split; [exact Hret | exact Hgone].
Defined.

(** ** The status message *)

Lemma open_rb_missing env path w :
  files w !! path = None ->
  open_rb env path w = (Raise (wording env (NoSuchFile path)), w).
Proof. intros H. unfold open_rb, bind, get_files. cbn. now rewrite H. Qed.

Lemma write_files_grows (P : Event -> Prop) (written : list (string * File)) :
  (forall p, P (EvWrite p)) -> preserves (grows P) (write_files written).
Proof.
  intros HP w. rewrite write_files_run. cbn. eexists. split; [reflexivity|].
  induction written; constructor; auto.
Qed.

Lemma text_events_app (a b : list Event) :
  text_events (a ++ b) = text_events a ++ text_events b.
Proof. apply List.filter_app. Qed.

Lemma text_events_writes (written : list (string * File)) :
  text_events (map (fun pf => EvWrite pf.1) written) = [].
Proof. induction written; [reflexivity | exact IHwritten]. Qed.

Lemma text_events_skip (ev : Event) (evs : list Event) :
  is_text_event ev = false -> text_events (ev :: evs) = text_events evs.
Proof. intros H. unfold text_events. cbn. now rewrite H. Qed.

Lemma msg_downloaded_final (title : string) : msg_downloaded title <> msg_downloading.
Proof. intros H. cbv in H. discriminate H. Qed.

Lemma msg_download_error_final (e : exn) : msg_download_error e <> msg_downloading.
Proof. intros H. cbv in H. discriminate H. Qed.

Lemma status_lookup (msgs : list Message) (m x : Message) :
  <[length msgs := x]> (msgs ++ [m]) !! length msgs = Some x.
Proof. apply list_lookup_insert_eq. rewrite length_app. cbn. lia. Qed.

Lemma status_lookup_more (msgs : list Message) (m x y : Message) :
  (<[length msgs := x]> (msgs ++ [m]) ++ [y]) !! length msgs = Some x.
Proof.
  rewrite lookup_app_l; [apply status_lookup|].
  rewrite length_insert, length_app. cbn. lia.
Qed.

(** Every event may follow the creation of the status message. *)
Lemma download_tail_grows (env : Env) (status : nat) (url : option string)
    (metadata : option (gmap string pyval)) :
  preserves (grows (fun _ => True))
    (try_except (download_body env status url metadata)
       (fun e =>
          logger_error ("Error downloading from YouTube: " +:+ e);;
          edit_text env status (msg_download_error e))).
Proof.
  unfold download_body, extract_info, add_id3_tags, add_id3_tags_body, eyed3_load_file,
    requests_get, save_tag, logger_error, edit_text, open_rb, reply_audio, os_remove,
    post, set_message.
  preserve using (apply write_files_grows; auto).
Qed.

(** C6 (amended): a direct video request creates one status message at its
    start; every notice after it is an edit of that message, which ends on
    an outcome text, never on the in-progress text. The download stage
    creates this status message each time it runs, with or without
    metadata, so a catalog request that reaches it has a second one. *)
Theorem direct_download_status_message (env : Env) (url : option string) (w : World) :
  (forall n, telegram env n = None) ->
  let status := length (chat w) in
  (let r := download_from_youtube env url None w in
   exists notices final,
     text_events (new_events w r.2)
     = EvReply status msg_downloading :: map (EvEdit status) (notices ++ [final]) /\
     chat r.2 !! status = Some (MText final) /\
     final <> msg_downloading /\
     ((exists title, final = msg_downloaded title) \/
      (exists e, final = msg_download_error e))) /\
  (forall metadata,
     exists evs,
       new_events w (download_from_youtube env url metadata w).2
       = EvReply status msg_downloading :: evs).
Proof.
  intros Hup status. split.
  - intros r. subst r. unfold download_from_youtube.
    rewrite (bind_ok _ _ _ _ _ (reply_text_ok env _ w (Hup _))).
    unfold download_body.
    destruct (ytdl env (S (tick w)) url true) as [a|e] eqn:Hdl.
    + erewrite try_except_bind_ok by (apply extract_info_download_ok; exact Hdl).
      cbn [metadata_given].
      erewrite try_except_bind_ok by reflexivity.
      erewrite try_except_bind_ok by (apply edit_text_ok, Hup).
      set (title := default "Unknown Title" (yt_title (yt_info a))).
      set (w2 := mkWorld _ _ _ _).
      destruct (files w2 !! artifact_path title) as [f|] eqn:Hfile.
      * erewrite try_except_bind_ok by (apply open_rb_ok; exact Hfile).
        erewrite try_except_bind_ok by (apply reply_audio_ok, Hup).
        erewrite try_except_ok by (eapply os_remove_ok; exact Hfile).
        exists [], (msg_downloaded title). subst w2. cbn.
        split; [|split; [apply status_lookup_more|split;
                   [apply msg_downloaded_final | left; now exists title]]].
        unfold new_events. cbn [log snd]. rewrite <- !app_assoc, drop_app_length.
        rewrite !text_events_app, (text_events_skip (EvExtract _ _)), text_events_writes
          by reflexivity.
        reflexivity.
      * erewrite try_except_raise by (apply bind_raise, open_rb_missing; exact Hfile).
        erewrite bind_ok by (unfold logger_error, record; reflexivity).
        rewrite edit_text_ok by apply Hup.
        eexists [msg_downloaded title], (msg_download_error _). subst w2. cbn.
        split; [|split; [|split; [apply msg_download_error_final | right; eauto]]].
        -- unfold new_events. cbn [log snd]. rewrite <- !app_assoc, drop_app_length.
           rewrite !text_events_app, (text_events_skip (EvExtract _ _)), text_events_writes
          by reflexivity.
           reflexivity.
        -- rewrite list_insert_insert_eq. apply status_lookup.
    + erewrite try_except_raise by (apply bind_raise, extract_info_download_raise; exact Hdl).
      erewrite bind_ok by (unfold logger_error, record; reflexivity).
      rewrite edit_text_ok by apply Hup.
      exists [], (msg_download_error e). cbn.
      split; [|split; [apply status_lookup|split;
                 [apply msg_download_error_final | right; eauto]]].
      unfold new_events. cbn [log snd]. rewrite <- !app_assoc, drop_app_length.
      rewrite !text_events_app, (text_events_skip (EvExtract _ _)), text_events_writes
        by reflexivity.
      reflexivity.
  - intros metadata. unfold download_from_youtube.
    rewrite (bind_ok _ _ _ _ _ (reply_text_ok env _ w (Hup _))).
    set (w1 := mkWorld _ _ _ _).
    destruct (download_tail_grows env status url metadata w1) as (evs & Hlog & _).
    exists evs. unfold new_events. fold status. rewrite Hlog. subst w1. cbn [log].
    now rewrite <- app_assoc, drop_app_length.
Qed.

Lemma direct_download_status_message_witness :
  exists notices final,
    text_events
      (new_events fresh_world
         (download_from_youtube all_up (Some "https://youtu.be/abc") None fresh_world).2)
    = EvReply 0 msg_downloading :: map (EvEdit 0) (notices ++ [final]) /\
    chat (download_from_youtube all_up (Some "https://youtu.be/abc") None fresh_world).2
      !! 0%nat = Some (MText final) /\
    final <> msg_downloading /\
    ((exists title, final = msg_downloaded title) \/
     (exists e, final = msg_download_error e)).
Proof.
  exact (proj1 (direct_download_status_message all_up (Some "https://youtu.be/abc")
                  fresh_world (fun _ => eq_refl))).
Defined.

(** C6 as stated fails on a catalog request: the metadata stage creates
    message 0, the download stage creates message 2 as a second status
    message, and message 0 still reads the in-progress text at the end. *)
Lemma status_message_counterexample :
  let r := get_spotify_info all_up "https://open.spotify.com/track/XYZ" fresh_world in
  r.1 = Ok tt /\
  text_events (log r.2)
  = [EvReply 0 msg_fetching; EvReply 2 msg_downloading; EvEdit 2 (msg_downloaded "Song")] /\
  chat r.2 !! 0%nat = Some (MText msg_fetching).
Proof. cbv zeta. repeat split; vm_compute; reflexivity. Qed.

(** ** The artifact path *)

Lemma append_inj_r (a b s : string) : a +:+ s = b +:+ s -> a = b.
Proof.
  revert b. induction a as [|c a IH]; intros [|d b] H.
  - reflexivity.
  - apply (f_equal String.length) in H. rewrite append_nil_l, length_append in H.
    cbn [String.length] in H. lia.
  - apply (f_equal String.length) in H. rewrite append_nil_l, length_append in H.
    cbn [String.length] in H. lia.
  - rewrite !append_cons in H. injection H as -> H. f_equal. now apply IH.
Qed.

Lemma artifact_path_inj (t1 t2 : string) : artifact_path t1 = artifact_path t2 -> t1 = t2.
Proof.
  unfold artifact_path, DOWNLOAD_DIR. intros H.
  apply (inj (String.app _)) in H. apply (inj (String.app _)) in H.
  now apply append_inj_r in H.
Qed.

Lemma touches_only_used_paths (path : string) (evs : list Event) :
  Forall (touches_only path) evs -> Forall (fun p => p = path) (used_paths evs).
Proof.
  induction 1 as [|ev evs Hev _ IH]; [constructor|].
  unfold used_paths. cbn. unfold touches_only in Hev.
  destruct (artifact_of ev); [constructor; assumption | exact IH].
Qed.

Lemma download_touches_title_path (env : Env) (url : option string)
    (metadata : option (gmap string pyval)) (w : World) (a : YtAnswer) :
  telegram env (tick w) = None ->
  ytdl env (S (tick w)) url true = Ok a ->
  Forall (fun p => p = artifact_path (default "Unknown Title" (yt_title (yt_info a))))
    (used_paths (new_events w (download_from_youtube env url metadata w).2)).
Proof.
  intros Hstatus Hdl. apply touches_only_used_paths, grows_new_events.
  unfold download_from_youtube.
  rewrite (bind_ok _ _ _ _ _ (reply_text_ok env _ w Hstatus)).
  unfold download_body.
  erewrite try_except_bind_ok by (apply extract_info_download_ok; exact Hdl).
  set (path := artifact_path _). set (w2 := mkWorld _ _ _ _).
  apply grows_trans with w2.
  { subst w2. cbn. eexists. split; [now rewrite <- app_assoc|].
    constructor; [exact I|]. constructor; [exact I|].
    induction (yt_written a); constructor; [exact I | assumption]. }
  match goal with
  | |- grows ?P _ (?m _).2 => cut (preserves (grows P) m); [intros Hp; apply Hp|]
  end.
  unfold add_id3_tags, add_id3_tags_body, eyed3_load_file, requests_get, save_tag,
    logger_error, edit_text, reply_audio, os_remove, post, set_message.
  preserve using (apply preserves_open_rb_bind; [frame_law|intros ?]).
Qed.

(** C2 (amended): the artifact path is [downloads/<title>.mp3], a function of
    the resolved title alone. Two requests whose media resolve to the same
    title read, tag, send and remove the same path, whatever their URLs,
    metadata, worlds or services; different titles give different paths. *)
Theorem same_title_same_artifact_path
    (env1 env2 : Env) (url1 url2 : option string)
    (metadata1 metadata2 : option (gmap string pyval)) (w1 w2 : World) (a1 a2 : YtAnswer) :
  telegram env1 (tick w1) = None ->
  ytdl env1 (S (tick w1)) url1 true = Ok a1 ->
  telegram env2 (tick w2) = None ->
  ytdl env2 (S (tick w2)) url2 true = Ok a2 ->
  yt_title (yt_info a1) = yt_title (yt_info a2) ->
  Forall
    (fun p1 =>
       Forall (fun p2 => p1 = p2)
         (used_paths (new_events w2 (download_from_youtube env2 url2 metadata2 w2).2)))
    (used_paths (new_events w1 (download_from_youtube env1 url1 metadata1 w1).2)) /\
  (forall t1 t2, artifact_path t1 = artifact_path t2 <-> t1 = t2).
Proof.
  intros Hs1 Hd1 Hs2 Hd2 Htitle. split.
  - pose proof (download_touches_title_path env1 url1 metadata1 w1 a1 Hs1 Hd1) as H1.
    pose proof (download_touches_title_path env2 url2 metadata2 w2 a2 Hs2 Hd2) as H2.
    eapply Forall_impl; [exact H1|]. intros p1 ->.
    eapply Forall_impl; [exact H2|]. intros p2 ->. now rewrite Htitle.
  - intros t1 t2. split; [apply artifact_path_inj | now intros ->].
Qed.

Lemma same_title_same_artifact_path_witness :
  Forall
    (fun p1 =>
       Forall (fun p2 => p1 = p2)
         (used_paths (new_events fresh_world
            (download_from_youtube (telegram_down_at 3) (Some "https://youtu.be/xyz")
               (Some sample_metadata) fresh_world).2)))
    (used_paths (new_events fresh_world
       (download_from_youtube all_up (Some "https://youtu.be/abc") None fresh_world).2)).
Proof.
  exact (proj1 (same_title_same_artifact_path all_up (telegram_down_at 3)
                  (Some "https://youtu.be/abc") (Some "https://youtu.be/xyz")
                  None (Some sample_metadata) fresh_world fresh_world
                  (mkYtAnswer (mkYtInfo (Some "Song") None)
                     [("downloads/Song.mp3", mkFile "mp3 bytes" None)])
                  (mkYtAnswer (mkYtInfo (Some "Song") None)
                     [("downloads/Song.mp3", mkFile "mp3 bytes" None)])
                  eq_refl eq_refl eq_refl eq_refl eq_refl)).
Defined.

(** C2 as stated fails: two requests for different URLs whose media both
    resolve to ["Song"], the second started after the first, send and remove
    the very same path. *)
Lemma artifact_path_counterexample :
  let first := download_from_youtube all_up (Some "https://youtu.be/abc") None fresh_world in
  let second := download_from_youtube all_up (Some "https://youtu.be/xyz") None first.2 in
  used_paths (new_events fresh_world first.2)
  = ["downloads/Song.mp3"; "downloads/Song.mp3"] /\
  used_paths (new_events first.2 second.2)
  = ["downloads/Song.mp3"; "downloads/Song.mp3"] /\
  artifact_path "Song" = "downloads/Song.mp3".
Proof. cbv zeta. repeat split; vm_compute; reflexivity. Qed.

(** ** Search without candidates *)

Ltac run_all :=
  unfold search_and_download_from_youtube, try_except, extract_info, reply_text,
    logger_error, bind, record, consult, post, raise, ret;
  cbn.

(** C4: when the search returns no entry, the download directory is as it was
    and the run makes no downloading call and writes no file; when Telegram
    delivers, the run is exactly the search followed by the no-match
    notice. *)
Theorem empty_search_no_retrieval (env : Env) (query : string)
    (metadata : option (gmap string pyval)) (w : World) (a : YtAnswer) :
  ytdl env (tick w) (Some ("ytsearch:" +:+ query)) false = Ok a ->
  default [] (yt_entries (yt_info a)) = [] ->
  let r := search_and_download_from_youtube env query metadata w in
  files r.2 = files w /\
  forallb (fun ev => negb (is_retrieval ev)) (new_events w r.2) = true /\
  (telegram env (S (tick w)) = None ->
   r = (Ok tt,
        mkWorld (files w) (chat w ++ [MText msg_no_match])
          (log w ++ [EvExtract (Some ("ytsearch:" +:+ query)) false;
                     EvReply (length (chat w)) msg_no_match])
          (S (S (tick w))))).
Proof.
  intros Hsearch Hempty r. subst r. unfold new_events. run_all.
  rewrite Hsearch. cbn. rewrite Hempty.
  repeat (case_match; simplify_eq/=);
    repeat split; try reflexivity; try discriminate;
    rewrite <- ?app_assoc, ?drop_app_length; reflexivity.
Qed.

Lemma empty_search_no_retrieval_witness :
  let r := search_and_download_from_youtube nothing_found "Song Ann, Bob audio"
             (Some sample_metadata) fresh_world in
  files r.2 = files fresh_world /\
  forallb (fun ev => negb (is_retrieval ev)) (new_events fresh_world r.2) = true /\
  chat r.2 = [MText msg_no_match].
Proof.
  pose proof (empty_search_no_retrieval nothing_found "Song Ann, Bob audio"
                (Some sample_metadata) fresh_world
                (mkYtAnswer (mkYtInfo None (Some [])) []) eq_refl eq_refl)
    as (Hfiles & Hlog & Hrun).
  cbv zeta. split; [exact Hfiles|]. split; [exact Hlog|].
  now rewrite (Hrun eq_refl).
Defined.

(** ** The download command *)

(** Once its status message is out, the download stage asks yt-dlp for the
    URL it was given. *)
Lemma download_from_youtube_starts (env : Env) (url : option string)
    (metadata : option (gmap string pyval)) (w : World) :
  telegram env (tick w) = None ->
  exists evs,
    log (download_from_youtube env url metadata w).2
    = log w ++ [EvReply (length (chat w)) msg_downloading; EvExtract url true] ++ evs.
Proof.
  intros Hstatus. unfold download_from_youtube.
  rewrite (bind_ok _ _ _ _ _ (reply_text_ok env _ w Hstatus)).
  unfold download_body, extract_info. rewrite try_except_record_bind.
  match goal with
  | |- context [try_except ?m ?h ?w2] =>
      assert (Hm : preserves (grows (fun _ => True)) (try_except m h));
        [|destruct (Hm w2) as (evs & Hlog & _)]
  end.
  { unfold add_id3_tags, add_id3_tags_body, eyed3_load_file, requests_get, save_tag,
      logger_error, edit_text, open_rb, reply_audio, os_remove, post, set_message.
    preserve using (apply write_files_grows; auto). }
  exists evs. rewrite Hlog. cbn. now rewrite <- !app_assoc.
Qed.

(** C8 (amended): [/download] needs at least one argument and reads only the
    first: without arguments it asks for a URL; a first argument that is not
    a video URL gets the validation error; a first argument that is a video
    URL starts the download of that URL, whatever arguments follow it. *)
Theorem download_command_first_argument (env : Env) (args : list string) (w : World) :
  telegram env (tick w) = None ->
  let r := download_command env args w in
  let reply text :=
    (Ok tt, mkWorld (files w) (chat w ++ [MText text])
              (log w ++ [EvReply (length (chat w)) text]) (S (tick w))) in
  match args with
  | [] => r = reply msg_need_url
  | url :: extra =>
      r = download_command env [url] w /\
      if is_video_word url
      then r = download_from_youtube env (Some url) None w /\
           exists evs,
             log r.2 = log w ++ [EvReply (length (chat w)) msg_downloading;
                                 EvExtract (Some url) true] ++ evs
      else r = reply msg_invalid_url
  end.
Proof.
  intros Hup r reply. subst r reply.
  destruct args as [|url extra]; cbn [download_command].
  - erewrite bind_ok by (apply reply_text_ok, Hup). reflexivity.
  - split; [reflexivity|].
    destruct (is_video_word url).
    + split; [reflexivity|]. now apply download_from_youtube_starts.
    + erewrite bind_ok by (apply reply_text_ok, Hup). reflexivity.
Qed.

Lemma download_command_first_argument_witness :
  download_command all_up ["https://youtu.be/abc"; "and"; "more"] fresh_world
  = download_command all_up ["https://youtu.be/abc"] fresh_world.
Proof.
  exact (proj1 (download_command_first_argument all_up
                  ["https://youtu.be/abc"; "and"; "more"] fresh_world eq_refl)).
Defined.

(** C8 as stated fails: with a second argument the command still enters the
    download, using the first argument only and saying nothing of the
    rest. *)
Lemma download_command_counterexample :
  let r := download_command all_up ["https://youtu.be/abc"; "https://youtu.be/other"]
             fresh_world in
  r = download_from_youtube all_up (Some "https://youtu.be/abc") None fresh_world /\
  log r.2
  = [EvReply 0 msg_downloading; EvExtract (Some "https://youtu.be/abc") true;
     EvWrite "downloads/Song.mp3"; EvEdit 0 (msg_downloaded "Song");
     EvAudio 1 "downloads/Song.mp3" "Song"; EvRemove "downloads/Song.mp3"].
Proof. cbv zeta. split; vm_compute; reflexivity. Qed.

(** ** A catalog request without candidates *)

Section NothingFound.
Variable env : Env.
Hypothesis every_search_is_empty :
forall n url a, ytdl env n url false = Ok a -> default [] (yt_entries (yt_info a)) = [].

Lemma search_empty_grows (query : string) (metadata : option (gmap string pyval)) :
preserves (grows (fun ev => is_retrieval ev = false))
  (search_and_download_from_youtube env query metadata).
Proof.
intros w. run_all.
destruct (ytdl env (tick w) (Some ("ytsearch:" +:+ query)) false) as [a|e] eqn:Hsearch;
  cbn; [rewrite (every_search_is_empty _ _ _ Hsearch)|];
  repeat (case_match; simplify_eq/=);
  (eexists; split; [rewrite <- ?app_assoc; reflexivity | repeat constructor]).
Qed.

Lemma search_empty_same_files (query : string) (metadata : option (gmap string pyval)) :
preserves same_files (search_and_download_from_youtube env query metadata).
Proof.
intros w. unfold same_files. run_all.
destruct (ytdl env (tick w) (Some ("ytsearch:" +:+ query)) false) as [a|e] eqn:Hsearch;
  cbn; [rewrite (every_search_is_empty _ _ _ Hsearch)|];
  repeat (case_match; simplify_eq/=); reflexivity.
Qed.

(** From the first message of a catalog request to its last, nothing is
  downloaded and the download directory stays as it was. *)
Lemma catalog_request_no_retrieval (url : string) (w : World) :
files (get_spotify_info env url w).2 = files w /\
Forall (fun ev => is_retrieval ev = false) (new_events w (get_spotify_info env url w).2).
Proof.
split.
- change (same_files w (get_spotify_info env url w).2). revert w.
  change (preserves same_files (get_spotify_info env url)).
  unfold get_spotify_info, reply_text, reply_photo, edit_text, logger_error, post,
    set_message.
  preserve using (apply search_empty_same_files).
- apply grows_new_events. revert w.
  change (preserves (grows (fun ev => is_retrieval ev = false)) (get_spotify_info env url)).
  unfold get_spotify_info, reply_text, reply_photo, edit_text, logger_error, post,
    set_message.
  preserve using (apply search_empty_grows).
Qed.
End NothingFound.

(** ** The catalog lookup uses the extracted identifier *)

Lemma search_and_download_grows (env : Env) (query : string)
    (metadata : option (gmap string pyval)) :
  preserves (grows (fun _ => True)) (search_and_download_from_youtube env query metadata).
Proof.
  unfold search_and_download_from_youtube, download_from_youtube, download_body,
    extract_info, add_id3_tags, add_id3_tags_body, eyed3_load_file, requests_get, save_tag,
    logger_error, reply_text, edit_text, open_rb, reply_audio, os_remove, post, set_message.
  preserve using (apply write_files_grows; auto).
Qed.

(** After its status message, a catalog request asks the provider for the
    identifier [extract_track_id] finds in the URL. *)
Lemma get_spotify_info_looks_up (env : Env) (url track_id : string) (w : World) :
  telegram env (tick w) = None ->
  extract_track_id url = Some track_id ->
  exists evs,
    new_events w (get_spotify_info env url w).2
    = EvReply (length (chat w)) msg_fetching :: EvTrack track_id :: evs.
Proof.
  intros Hstatus Hid. unfold extract_track_id in Hid.
  destruct (contains track_marker url) eqn:Hguard; [|discriminate].
  unfold get_spotify_info.
  rewrite (bind_ok _ _ _ _ _ (reply_text_ok env _ w Hstatus)).
  rewrite Hguard, Hid.
  erewrite try_except_bind_ok by reflexivity.
  erewrite try_except_bind_ok by (unfold record; reflexivity).
  match goal with
  | |- context [try_except ?m ?h ?w2] =>
      assert (Hm : preserves (grows (fun _ => True)) (try_except m h));
        [|destruct (Hm w2) as (evs & Hlog & _)]
  end.
  { unfold reply_photo, edit_text, logger_error, post, set_message.
    preserve using (apply search_and_download_grows). }
  exists evs. unfold new_events. rewrite Hlog. cbn [log].
  now rewrite <- !app_assoc, drop_app_length.
Qed.

(** ** More on the track identifier *)

Lemma prefix_split (p u : string) : String.prefix p u = true -> exists r, u = p +:+ r.
Proof.
  revert u. induction p as [|x p IH]; intros u Hpre.
  - now exists u.
  - destruct u as [|d u]; [discriminate|].
    rewrite prefix_cons in Hpre. apply andb_true_iff in Hpre as [Hx Hp].
    apply Ascii.eqb_eq in Hx as ->. destruct (IH u Hp) as [r ->]. now exists r.
Qed.


Lemma no_match_of_contains (sep a : string) :
  contains sep a = false -> no_match_in sep a "" = true.
Proof.
  induction a as [|c a IH]; [reflexivity|].
  cbn [contains no_match_in]. intros [Hhere Hlater]%orb_false_iff.
  now rewrite append_nil_r, Hhere, (IH Hlater).
Qed.



(** X1: a catalog URL without a query string gives its identifier as well:
    for a base that neither contains the marker nor ends in ["/track"] and an
    identifier without marker and without ["?"], the text after the marker is
    returned whole. *)
Theorem extract_track_id_without_query (base id : string) :
  contains "/track/" base = false ->
  endswith base "/track" = false ->
  contains "/track/" id = false ->
  contains "?" id = false ->
  extract_track_id (base +:+ "/track/" +:+ id) = Some id.
Proof.
  intros Hbase Hend Hid Hq. unfold extract_track_id, track_id_of.
  change "/track/" with track_marker.
  rewrite contains_at.
  rewrite split_marker_second by now apply marker_window.
  rewrite (split_sep_no_match track_marker id (no_match_of_contains _ _ Hid)). cbn [head].
  now rewrite (split_sep_no_match _ _ (no_match_of_contains _ _ Hq)).
Qed.

Lemma extract_track_id_without_query_witness :
  extract_track_id ("https://open.spotify.com" +:+ "/track/" +:+ "4uLU6hMCjMI75M1A2tKUQC")
  = Some "4uLU6hMCjMI75M1A2tKUQC".
Proof.
  exact (extract_track_id_without_query "https://open.spotify.com" "4uLU6hMCjMI75M1A2tKUQC"
           eq_refl eq_refl eq_refl eq_refl).
Defined.



(** ** A bare link and the matching command *)

Lemma split_ws_go_no_whitespace (cur s : string) :
  no_whitespace s = true -> split_ws_go 0 cur s = emit (cur +:+ s).
Proof.
  revert cur. induction s as [|c s IH]; intros cur Hns.
  - now rewrite append_nil_r.
  - cbn [no_whitespace] in Hns. apply andb_true_iff in Hns as [Hc Hs].
    apply Nat.eqb_eq in Hc. cbn [split_ws_go]. rewrite Hc, (IH _ Hs).
    now rewrite append_snoc.
Qed.

Lemma contains_empty (p : string) : p <> "" -> contains p "" = false.
Proof. intros Hne. cbn [contains]. now rewrite prefix_empty_r. Qed.

Lemma split_ws_single (p url : string) :
  p <> "" -> no_whitespace url = true -> contains p url = true -> split_ws url = [url].
Proof.
  intros Hne Hns Hin. unfold split_ws. rewrite split_ws_go_no_whitespace by exact Hns.
  rewrite append_nil_l. destruct url; [|reflexivity].
  now rewrite contains_empty in Hin.
Qed.

(** A text that holds a pattern holds every beginning of the pattern. *)
Lemma contains_beginning (a b s : string) :
  contains (a +:+ b) s = true -> contains a s = true.
Proof.
  induction s as [|c s IH]; cbn [contains]; intros Hin.
  - rewrite orb_false_r in Hin |- *. destruct (prefix_split _ _ Hin) as [r Hr].
    rewrite Hr, append_assoc. apply prefix_append.
  - apply orb_true_iff in Hin as [Hpre|Hlater].
    + destruct (prefix_split _ _ Hpre) as [r Hr].
      rewrite Hr, append_assoc, prefix_append. reflexivity.
    + rewrite (IH Hlater). apply orb_true_r.
Qed.

(** X3: a message that is nothing but a link, with no whitespace character
    of any width in it, is handled as the command for that link: a video
    link as [/download <link>], and a catalog track link that holds no video
    marker as [/spotify <link>], whatever further arguments the command is
    given. *)
Theorem bare_link_is_command (env : Env) (url : string) (extra : list string) :
  no_whitespace url = true ->
  (is_video_word url = true ->
   handle_message env url = download_command env (url :: extra)) /\
  (is_video_word url = false -> is_track_word url = true ->
   handle_message env url = spotify_command env (url :: extra)).
Proof.
  intros Hns. split.
  - intros Hvideo. unfold handle_message, download_command.
    change (contains "youtube.com" url || contains "youtu.be" url) with (is_video_word url).
    rewrite Hvideo.
    assert (Hwords : split_ws url = [url]).
    { unfold is_video_word in Hvideo. apply orb_true_iff in Hvideo as [H|H];
        eapply split_ws_single; try exact H; try exact Hns; discriminate. }
    rewrite Hwords. cbn [scan_words]. now rewrite Hvideo.
  - intros Hvideo Htrack. unfold handle_message, spotify_command.
    change (contains "youtube.com" url || contains "youtu.be" url) with (is_video_word url).
    change (contains "spotify.com/track" url) with (is_track_word url).
    rewrite Hvideo, Htrack.
    rewrite (split_ws_single "spotify.com/track" url) by (discriminate || assumption).
    cbn [scan_words]. rewrite Htrack.
    now rewrite (contains_beginning "spotify.com" "/track" url Htrack).
Qed.

Lemma bare_link_is_command_witness :
  handle_message all_up "https://youtu.be/abc"
  = download_command all_up ["https://youtu.be/abc"; "more"] /\
  handle_message all_up "https://open.spotify.com/track/XYZ"
  = spotify_command all_up ["https://open.spotify.com/track/XYZ"].
Proof.
  split.
  - exact (proj1 (bare_link_is_command all_up "https://youtu.be/abc" ["more"] eq_refl) eq_refl).
  - exact (proj2 (bare_link_is_command all_up "https://open.spotify.com/track/XYZ" [] eq_refl)
             eq_refl eq_refl).
Defined.

(** ** The release year *)

(** X4: a release date without a dash has no year, and [int] is not asked;
    in a release date with a dash, [int] reads exactly the text before the
    first dash, whatever follows it, and its [ValueError] is the failure of
    the line. *)
Theorem release_year_of_date (env : Env) (date year rest : string) :
  (contains "-" date = false -> release_year env date = Ok None) /\
  (contains "-" year = false ->
   release_year env (year +:+ "-" +:+ rest)
   = match int_of_text env year with
     | Some y => Ok (Some y)
     | None => Raise (wording env (BadInt year))
     end).
Proof.
  split.
  - intros Hno. unfold release_year. now rewrite Hno.
  - intros Hyear. unfold release_year.
    rewrite (contains_at "-" year rest).
    assert (Hhead : head (split_sep "-" (year +:+ "-" +:+ rest)) = Some year).
    { unfold split_sep.
      assert (Hno : no_match_in "-" year ("" +:+ "-" +:+ rest) = true).
      { apply no_match_of_window; [cbn; lia|].
        now rewrite append_nil_r. }
      rewrite append_nil_l in Hno.
      rewrite (split_sep_go_no_match _ _ _ _ Hno), append_nil_l.
      now rewrite split_sep_go_at_sep by discriminate. }
    rewrite Hhead. reflexivity.
Qed.

Lemma release_year_of_date_witness :
  release_year all_up "2021" = Ok None /\
  release_year all_up ("2021" +:+ "-" +:+ "05-14") = Ok (Some 2021) /\
  release_year all_up ("May 14" +:+ "-" +:+ "2021")
  = Raise (wording all_up (BadInt "May 14")).
Proof.
  split; [|split].
  - exact (proj1 (release_year_of_date all_up "2021" "" "") eq_refl).
  - exact (proj2 (release_year_of_date all_up "" "2021" "05-14") eq_refl).
  - exact (proj2 (release_year_of_date all_up "" "May 14" "2021") eq_refl).
Defined.

(** ** The metadata dictionary *)

(** The dictionary the catalog stage builds reads back what went in. *)
Lemma build_metadata_lookup (title artist_names album album_artist : string)
    (image_url : option string) (track_number : Z) (year : option Z) :
  let metadata :=
    build_metadata title artist_names album album_artist image_url track_number year in
  metadata !! "title" = Some (VStr title) /\
  metadata !! "artist" = Some (VStr artist_names) /\
  metadata !! "album" = Some (VStr album) /\
  metadata !! "album_artist" = Some (VStr album_artist) /\
  metadata !! "cover_url"
  = Some (match image_url with Some u => VStr u | None => VNone end) /\
  metadata !! "track_number" = Some (VInt track_number) /\
  metadata !! "year"
  = match year with
    | Some y => if y =? 0 then None else Some (VInt y)
    | None => None
    end /\
  metadata_given (Some metadata) = Some metadata.
Proof.
  intros metadata.
  assert (Htitle : metadata !! "title" = Some (VStr title)).
  { subst metadata. unfold build_metadata.
    destruct year as [y|]; [destruct (y =? 0)|]; now simplify_map_eq. }
  repeat split; try exact Htitle;
    try (subst metadata; unfold build_metadata;
         destruct year as [y|]; [destruct (y =? 0)|]; now simplify_map_eq).
Qed.

(** X5: the dictionary the catalog stage builds can be written to a tag
    whatever the track's texts are; only its year can make an assignment
    raise. The dictionary counts as given in [if metadata:]; the four texts
    are stored when they are not empty and the track number always; a year
    in 1..9999 becomes the recording date, without a year (or with the year
    0, which [if year:] drops) the recording date stays as the file had it,
    and any other year makes line 170 raise. *)
Theorem catalog_metadata_tagging (env : Env) (tag : Tag)
    (title artist_names album album_artist : string)
    (image_url : option string) (track_number : Z) (year : option Z) :
  let metadata :=
    build_metadata title artist_names album album_artist image_url track_number year in
  let written recording_date :=
    mkTag (kept_text (VStr title)) (kept_text (VStr artist_names)) (kept_text (VStr album))
      (kept_text (VStr album_artist)) recording_date (Some track_number) (tag_images tag) in
  metadata_given (Some metadata) = Some metadata /\
  set_basic_tags env tag metadata
  = match year with
    | Some y =>
        if y =? 0 then Ok (written (tag_recording_date tag))
        else if (1 <=? y) && (y <=? 9999) then Ok (written (Some (VInt y)))
        else Raise (wording env (BadYear y))
    | None => Ok (written (tag_recording_date tag))
    end.
Proof.
  intros metadata written.
  pose proof (build_metadata_lookup title artist_names album album_artist image_url
                track_number year) as Hlookup.
  cbv zeta in Hlookup. fold metadata in Hlookup.
  destruct Hlookup as (Htitle & Hartist & Halbum & Halbum_artist & _ & Htrack & Hyear & Hgiven).
  split; [exact Hgiven|].
  unfold set_basic_tags, dict_get.
  rewrite Htitle, Hartist, Halbum, Halbum_artist, Htrack, Hyear.
  destruct year as [y|]; [destruct (y =? 0)|]; cbn; try reflexivity.
  destruct ((1 <=? y) && (y <=? 9999)); reflexivity.
Qed.

(** ** More on tag enrichment *)

Ltac run_tagging :=
  unfold add_id3_tags, try_except, add_id3_tags_body, eyed3_load_file, requests_get,
    save_tag, logger_error, lift, bind, record, consult, get_files, set_files, raise, ret;
  cbn.

(** X6: tag enrichment stays within its file. Whatever eyed3, the cover
    server and the tag write do, [add_id3_tags] returns normally, leaves the
    chat and every other file as they were, changes no audio bytes and
    removes no file, and adds to the log only its own events. *)
Theorem add_id3_tags_frame (env : Env) (path : string) (metadata : gmap string pyval)
    (w : World) (other : string) :
  let r := add_id3_tags env path metadata w in
  r.1 = Ok tt /\
  chat r.2 = chat w /\
  f_audio <$> files r.2 !! path = f_audio <$> files w !! path /\
  (other <> path -> files r.2 !! other = files w !! other) /\
  forallb is_tagging_event (new_events w r.2) = true.
Proof.
  intros r. subst r. unfold new_events. run_tagging.
  repeat (case_match; simplify_eq/=);
    repeat split; try reflexivity;
    rewrite <- ?app_assoc, ?drop_app_length; try reflexivity.
  all: try (intros Hother; now rewrite lookup_alter_ne).
  all: rewrite ?lookup_alter_eq;
    match goal with H : files _ !! _ = _ |- _ => now rewrite H end.
Qed.

(** X7: tagging is all or nothing on disk. When the tagging body fails, at
    whatever step, no file has changed; [add_id3_tags] then adds one error
    line to the log and returns. *)
Theorem tagging_failure_leaves_files (env : Env) (path : string)
    (metadata : gmap string pyval) (w w' : World) (e : exn) :
  add_id3_tags_body env path metadata w = (Raise e, w') ->
  files w' = files w /\
  chat w' = chat w /\
  add_id3_tags env path metadata w
  = (Ok tt, mkWorld (files w) (chat w)
              (log w' ++ [EvLogError ("Error adding ID3 tags: " +:+ e)]) (tick w')).
Proof.
  intros Hrun. unfold add_id3_tags, try_except. rewrite Hrun.
  revert Hrun. run_tagging.
  repeat (case_match; simplify_eq/=); intros; simplify_eq/=; repeat split; reflexivity.
Qed.

Lemma tagging_failure_leaves_files_witness :
  files (add_id3_tags eyed3_blind "downloads/Song.mp3" sample_metadata one_file_world).2
  = files one_file_world.
Proof.
  destruct (tagging_failure_leaves_files eyed3_blind "downloads/Song.mp3" sample_metadata
              one_file_world _ _ eq_refl) as (_ & _ & Hrun).
  now rewrite Hrun.
Defined.

Lemma set_image_find (images : list Image) (new : Image) :
  List.find (has_description (img_description new)) (set_image images new) = Some new.
Proof.
  assert (Hnew : has_description (img_description new) new = true)
    by apply String.eqb_refl.
  induction images as [|i rest IH]; cbn; [now rewrite Hnew|].
  destruct (has_description (img_description new) i) eqn:Hi; cbn; [now rewrite Hnew|].
  now rewrite Hi.
Qed.

Lemma set_image_others (images : list Image) (new : Image) :
  List.filter (fun i => negb (has_description (img_description new) i)) (set_image images new)
  = List.filter (fun i => negb (has_description (img_description new) i)) images.
Proof.
  assert (Hnew : has_description (img_description new) new = true)
    by apply String.eqb_refl.
  induction images as [|i rest IH]; cbn; [now rewrite Hnew|].
  destruct (has_description (img_description new) i) eqn:Hi; cbn.
  - now rewrite Hnew.
  - now rewrite Hi, IH.
Qed.

(** X8: the cover is best effort within tagging. With the file loaded, the
    basic assignments made and a cover URL in the metadata, an answer other
    than 200 is no error: the tag is saved with the pictures the file had.
    An answer 200 with image data makes that data the picture with the empty
    description, the front cover, and leaves every picture under another
    description as it was; an answer 200 without data ends tagging with
    eyed3's error and nothing is saved. *)
Theorem cover_by_status (env : Env) (path : string) (metadata : gmap string pyval)
    (w : World) (f : File) (basic : Tag) (cover_url : pyval) (response : Response) :
  files w !! path = Some f ->
  eyed3_load env (tick w) path = LoadOk ->
  set_basic_tags env (default empty_tag (f_tag f)) metadata = Ok basic ->
  metadata !! "cover_url" = Some cover_url ->
  truthy cover_url = true ->
  http_get env (S (tick w)) (py_str cover_url) = Ok response ->
  tag_save env (S (S (tick w))) path = None ->
  let r := add_id3_tags_body env path metadata w in
  let before := tag_images (default empty_tag (f_tag f)) in
  let cover := mkImage FRONT_COVER (content response) "image/jpeg" "" in
  (status_code response <> 200 ->
   r.1 = Ok tt /\
   files r.2 !! path = Some (mkFile (f_audio f) (Some basic)) /\
   tag_images basic = before) /\
  (status_code response = 200 -> content response <> "" ->
   exists tag,
     r.1 = Ok tt /\
     files r.2 !! path = Some (mkFile (f_audio f) (Some tag)) /\
     List.find (has_description "") (tag_images tag) = Some cover /\
     List.filter (fun i => negb (has_description "" i)) (tag_images tag)
     = List.filter (fun i => negb (has_description "" i)) before) /\
  (status_code response = 200 -> content response = "" ->
   r.1 = Raise (wording env NoImageData) /\ files r.2 = files w).
Proof.
  intros Hfile Hload Hbasic Hcover Htruthy Hget Hsave r before cover. subst r.
  pose proof (set_basic_tags_ok _ _ _ _ Hbasic) as (_ & _ & _ & _ & Himages).
  run_tagging. rewrite Hfile. cbn. rewrite Hload. cbn.
  change (match f_tag f with Some t => t | None => empty_tag end)
    with (default empty_tag (f_tag f)).
  rewrite Hbasic. cbn. rewrite Hcover, Htruthy. cbn. rewrite Hget. cbn.
  split; [|split].
  - intros Hstatus. apply Z.eqb_neq in Hstatus. rewrite Hstatus. cbn.
    rewrite Hsave. cbn. rewrite lookup_alter_eq, Hfile. now repeat split.
  - intros Hstatus Hdata. apply Z.eqb_eq in Hstatus. rewrite Hstatus. cbn.
    unfold set_front_cover. destruct (String.eqb_spec (content response) ""); [easy|].
    cbn. rewrite Hsave. cbn. rewrite lookup_alter_eq, Hfile. cbn.
    eexists. split; [reflexivity|]. split; [reflexivity|]. cbn. rewrite Himages.
    split; [apply (set_image_find before cover) | apply (set_image_others before cover)].
  - intros Hstatus Hdata. apply Z.eqb_eq in Hstatus. rewrite Hstatus. cbn.
    unfold set_front_cover. rewrite Hdata. cbn. now split.
Qed.

Lemma cover_by_status_witness :
  let fetched := add_id3_tags_body all_up "downloads/Song.mp3" cover_only covered_world in
  let missing :=
    add_id3_tags_body cover_missing "downloads/Song.mp3" cover_only covered_world in
  let basic :=
    mkTag (Some "Unknown Title") (Some "Unknown Artist") (Some "Unknown Album")
      (Some "Unknown Artist") None None [old_cover] in
  (exists tag,
     fetched.1 = Ok tt /\
     files fetched.2 !! "downloads/Song.mp3" = Some (mkFile "mp3 bytes" (Some tag)) /\
     List.find (has_description "") (tag_images tag)
     = Some (mkImage FRONT_COVER "jpeg bytes" "image/jpeg" "") /\
     List.filter (fun i => negb (has_description "" i)) (tag_images tag) = [old_cover]) /\
  (missing.1 = Ok tt /\
   files missing.2 !! "downloads/Song.mp3" = Some (mkFile "mp3 bytes" (Some basic)) /\
   tag_images basic = [old_cover]).
Proof.
  split.
  - exact (proj1 (proj2
      (cover_by_status all_up "downloads/Song.mp3" cover_only covered_world
         (mkFile "mp3 bytes" (Some (mkTag None None None None None None [old_cover])))
         (mkTag (Some "Unknown Title") (Some "Unknown Artist") (Some "Unknown Album")
            (Some "Unknown Artist") None None [old_cover])
         (VStr "https://i.scdn.co/image/cover") (mkResponse 200 "jpeg bytes")
         eq_refl eq_refl eq_refl eq_refl eq_refl eq_refl eq_refl))
      eq_refl ltac:(discriminate)).
  - exact (proj1
      (cover_by_status cover_missing "downloads/Song.mp3" cover_only covered_world
         (mkFile "mp3 bytes" (Some (mkTag None None None None None None [old_cover])))
         (mkTag (Some "Unknown Title") (Some "Unknown Artist") (Some "Unknown Album")
            (Some "Unknown Artist") None None [old_cover])
         (VStr "https://i.scdn.co/image/cover") (mkResponse 404 "not found")
         eq_refl eq_refl eq_refl eq_refl eq_refl eq_refl eq_refl)
      ltac:(discriminate)).
Defined.

(** X9: without a usable cover URL tagging makes no HTTP request: when the
    metadata has no ["cover_url"] entry, or an entry that is [None] or
    empty, no request goes out. *)
Theorem no_cover_no_request (env : Env) (path : string) (metadata : gmap string pyval)
    (w : World) :
  match metadata !! "cover_url" with
  | Some cover_url => truthy cover_url = false
  | None => True
  end ->
  forallb (fun ev => negb (is_http_event ev))
    (new_events w (add_id3_tags env path metadata w).2) = true.
Proof.
  intros Hcover. unfold new_events. run_tagging.
  destruct (metadata !! "cover_url") as [cover_url|]; [rewrite Hcover|];
    repeat (case_match; simplify_eq/=);
    rewrite <- ?app_assoc, ?drop_app_length; reflexivity.
Qed.

Lemma no_cover_no_request_witness :
  forallb (fun ev => negb (is_http_event ev))
    (new_events one_file_world
       (add_id3_tags all_up "downloads/Song.mp3" sample_metadata one_file_world).2) = true.
Proof.
  exact (no_cover_no_request all_up "downloads/Song.mp3" sample_metadata one_file_world
           eq_refl).
Defined.

(** ** Runs of the download stage *)

(** X10: a direct download that goes through is exactly: status message,
    download, status edit to the title, the audio with the bytes yt-dlp
    wrote, removal. The download directory ends as it was without the
    artifact path; a file that stood at that path before is gone as well. *)
Theorem direct_download_delivers (env : Env) (url : option string) (w : World)
    (a : YtAnswer) (f : File) :
  let title := default "Unknown Title" (yt_title (yt_info a)) in
  let path := artifact_path title in
  let status := length (chat w) in
  telegram env (tick w) = None ->
  ytdl env (S (tick w)) url true = Ok a ->
  yt_written a = [(path, f)] ->
  telegram env (S (S (tick w))) = None ->
  telegram env (S (S (S (tick w)))) = None ->
  download_from_youtube env url None w
  = (Ok tt,
     mkWorld (delete path (files w))
       (<[status := MText (msg_downloaded title)]> (chat w ++ [MText msg_downloading])
        ++ [MAudio f title])
       (log w ++ [EvReply status msg_downloading; EvExtract url true; EvWrite path;
                  EvEdit status (msg_downloaded title); EvAudio (S status) path title;
                  EvRemove path])
       (S (S (S (S (tick w)))))).
Proof.
  intros title path status Hstatus Hdl Hwritten Hedit Hsend.
  unfold download_from_youtube.
  rewrite (bind_ok _ _ _ _ _ (reply_text_ok env _ w Hstatus)).
  unfold download_body.
  erewrite try_except_bind_ok by (apply extract_info_download_ok; exact Hdl).
  cbn [metadata_given]. fold title path. rewrite Hwritten.
  cbn [with_written foldl map fst snd].
  erewrite try_except_bind_ok by reflexivity.
  erewrite try_except_bind_ok by (apply edit_text_ok; exact Hedit).
  erewrite try_except_bind_ok by (apply open_rb_ok; cbn; apply lookup_insert_eq).
  erewrite try_except_bind_ok by (apply reply_audio_ok; exact Hsend).
  erewrite try_except_ok by (eapply os_remove_ok; cbn; apply lookup_insert_eq).
  cbn. rewrite delete_insert_eq, length_insert, length_app. cbn [length].
  replace (length (chat w) + 1)%nat with (S status) by (unfold status; lia).
  now rewrite <- !app_assoc.
Qed.

Lemma direct_download_delivers_witness :
  files (download_from_youtube all_up (Some "https://youtu.be/abc") None one_file_world).2
  = delete "downloads/Song.mp3" (files one_file_world).
Proof.
  now rewrite (direct_download_delivers all_up (Some "https://youtu.be/abc") one_file_world
                 (mkYtAnswer (mkYtInfo (Some "Song") None)
                    [("downloads/Song.mp3", mkFile "mp3 bytes" None)])
                 (mkFile "mp3 bytes" None) eq_refl eq_refl eq_refl eq_refl eq_refl).
Defined.

(** X11: when yt-dlp fails, the status message is edited to the error notice
    with the cause as yt-dlp worded it, the cause is logged, no audio is
    sent and the handler returns normally. The handler removes nothing:
    what the failed download had already written stays in the download
    directory. *)
Theorem download_failure_reported (env : Env) (url : option string)
    (metadata : option (gmap string pyval)) (w : World) (e : exn) :
  let status := length (chat w) in
  let left_behind := ytdl_debris env (S (tick w)) url in
  telegram env (tick w) = None ->
  ytdl env (S (tick w)) url true = Raise e ->
  telegram env (S (S (tick w))) = None ->
  download_from_youtube env url metadata w
  = (Ok tt,
     mkWorld (with_written (files w) left_behind)
       (<[status := MText (msg_download_error e)]> (chat w ++ [MText msg_downloading]))
       (log w ++ [EvReply status msg_downloading; EvExtract url true]
              ++ map (fun pf => EvWrite pf.1) left_behind
              ++ [EvLogError ("Error downloading from YouTube: " +:+ e);
                  EvEdit status (msg_download_error e)])
       (S (S (S (tick w))))).
Proof.
  intros status left_behind Hstatus Hdl Hedit. unfold download_from_youtube.
  rewrite (bind_ok _ _ _ _ _ (reply_text_ok env _ w Hstatus)).
  unfold download_body.
  erewrite try_except_raise by (apply bind_raise, extract_info_download_raise; exact Hdl).
  erewrite bind_ok by (unfold logger_error, record; reflexivity).
  rewrite edit_text_ok by exact Hedit.
  cbn. fold left_behind. now rewrite <- !app_assoc.
Qed.

Lemma download_failure_reported_witness :
  let r := download_from_youtube conversion_fails (Some "https://youtu.be/abc") None
             fresh_world in
  chat r.2 = [MText (msg_download_error "Postprocessing: ffmpeg not found")] /\
  files r.2 = {["downloads/Song.webm" := mkFile "webm bytes" None]}.
Proof.
  cbv zeta.
  rewrite (download_failure_reported conversion_fails (Some "https://youtu.be/abc") None
             fresh_world "Postprocessing: ffmpeg not found" eq_refl eq_refl eq_refl).
  split; reflexivity.
Defined.

(** X12: the handler looks for the audio only at [downloads/<title>.mp3].
    When yt-dlp left it under another name and nothing stands at that path,
    the request ends on the notice of the error [open] raises for that
    path, sends no audio, and the file yt-dlp wrote stays in the download
    directory. *)
Theorem renamed_output_is_lost (env : Env) (url : option string) (w : World)
    (a : YtAnswer) (written : string) (f : File) :
  let title := default "Unknown Title" (yt_title (yt_info a)) in
  let path := artifact_path title in
  let status := length (chat w) in
  let cause := wording env (NoSuchFile path) in
  telegram env (tick w) = None ->
  ytdl env (S (tick w)) url true = Ok a ->
  yt_written a = [(written, f)] ->
  written <> path ->
  files w !! path = None ->
  telegram env (S (S (tick w))) = None ->
  telegram env (S (S (S (tick w)))) = None ->
  download_from_youtube env url None w
  = (Ok tt,
     mkWorld (<[written := f]> (files w))
       (<[status := MText (msg_download_error cause)]> (chat w ++ [MText msg_downloading]))
       (log w ++ [EvReply status msg_downloading; EvExtract url true; EvWrite written;
                  EvEdit status (msg_downloaded title);
                  EvLogError ("Error downloading from YouTube: " +:+ cause);
                  EvEdit status (msg_download_error cause)])
       (S (S (S (S (tick w)))))).
Proof.
  intros title path status cause Hstatus Hdl Hwritten Hne Hfree Hedit Hedit'.
  unfold download_from_youtube.
  rewrite (bind_ok _ _ _ _ _ (reply_text_ok env _ w Hstatus)).
  unfold download_body.
  erewrite try_except_bind_ok by (apply extract_info_download_ok; exact Hdl).
  cbn [metadata_given]. fold title path. rewrite Hwritten.
  cbn [with_written foldl map fst snd].
  erewrite try_except_bind_ok by reflexivity.
  erewrite try_except_bind_ok by (apply edit_text_ok; exact Hedit).
  erewrite try_except_raise
    by (apply bind_raise, open_rb_missing; cbn; now rewrite lookup_insert_ne).
  erewrite bind_ok by (unfold logger_error, record; reflexivity).
  rewrite edit_text_ok by exact Hedit'.
  cbn. fold cause. rewrite list_insert_insert_eq. now rewrite <- !app_assoc.
Qed.

Lemma renamed_output_is_lost_witness :
  files (download_from_youtube renamed_output (Some "https://youtu.be/abc") None
           fresh_world).2
  = {["downloads/AC_DC.mp3" := mkFile "mp3 bytes" None]}.
Proof.
  rewrite (renamed_output_is_lost renamed_output (Some "https://youtu.be/abc") fresh_world
             (mkYtAnswer (mkYtInfo (Some "AC/DC") None)
                [("downloads/AC_DC.mp3", mkFile "mp3 bytes" None)])
             "downloads/AC_DC.mp3" (mkFile "mp3 bytes" None)
             eq_refl eq_refl eq_refl ltac:(discriminate) eq_refl eq_refl eq_refl).
  reflexivity.
Defined.

(** ** Handlers do not raise while Telegram delivers *)

Lemma never_raises_ret {A} (a : A) : never_raises (ret a).
Proof. intros w. now exists a. Qed.

Lemma never_raises_bind {A B} (m : M A) (k : A -> M B) :
  never_raises m -> (forall a, never_raises (k a)) -> never_raises (bind m k).
Proof.
  intros Hm Hk w. unfold bind. destruct (Hm w) as [a Ha].
  destruct (m w) as [[a'|e] w1]; cbn in Ha; [|discriminate]. apply Hk.
Qed.

(** A [try] whose handler does not raise does not raise, whatever its body
    does. *)
Lemma never_raises_try_except {A} (body : M A) (handler : exn -> M A) :
  (forall e, never_raises (handler e)) -> never_raises (try_except body handler).
Proof.
  intros Hh w. unfold try_except.
  destruct (body w) as [[a|e] w1]; [now exists a | apply Hh].
Qed.

Lemma never_raises_record (ev : Event) : never_raises (record ev).
Proof. intros w. now exists tt. Qed.


Section TelegramDelivers.
Variable env : Env.
Hypothesis delivers : forall n, telegram env n = None.

Lemma never_raises_reply_text (text : string) : never_raises (reply_text env text).
Proof. intros w. rewrite reply_text_ok by apply delivers. now eexists. Qed.


Lemma never_raises_reply_notice (text : string) :
  never_raises (reply_text env text;; ret tt).
Proof.
  apply never_raises_bind; [apply never_raises_reply_text | intros; apply never_raises_ret].
Qed.


Lemma never_raises_search (query : string) (metadata : option (gmap string pyval)) :
  never_raises (search_and_download_from_youtube env query metadata).
Proof.
  unfold search_and_download_from_youtube.
  apply never_raises_try_except. intros e.
  apply never_raises_bind; [apply never_raises_record|]. intros _.
  apply never_raises_reply_notice.
Qed.


End TelegramDelivers.



(** X14: a handler whose first Telegram call fails does nothing at all: the
    exception leaves the download and the catalog handlers before any
    service is called, and the world is as it was but for the call
    count. *)
Theorem no_status_no_work (env : Env) (url : option string) (catalog_url : string)
    (metadata : option (gmap string pyval)) (w : World) (e : exn) :
  telegram env (tick w) = Some e ->
  let w' := mkWorld (files w) (chat w) (log w) (S (tick w)) in
  download_from_youtube env url metadata w = (Raise e, w') /\
  get_spotify_info env catalog_url w = (Raise e, w').
Proof.
  intros Hdown w'. split.
  - unfold download_from_youtube. apply bind_raise.
    unfold reply_text, bind, consult. cbn. now rewrite Hdown.
  - unfold get_spotify_info. apply bind_raise.
    unfold reply_text, bind, consult. cbn. now rewrite Hdown.
Qed.

Lemma no_status_no_work_witness :
  download_from_youtube (telegram_down_at 0) (Some "https://youtu.be/abc") None fresh_world
  = (Raise "Timed out", mkWorld ∅ [] [] 1).
Proof.
  exact (proj1 (no_status_no_work (telegram_down_at 0) (Some "https://youtu.be/abc")
                  "https://open.spotify.com/track/XYZ" None fresh_world "Timed out"
                  eq_refl)).
Defined.

(** ** Handlers leave earlier messages alone *)

Section KeepsFirst.
Variable n : nat.

Lemma keeps_first_refl w : keeps_first n w w.
Proof. intros Hn. now split. Qed.

Lemma keeps_first_trans w1 w2 w3 :
  keeps_first n w1 w2 -> keeps_first n w2 w3 -> keeps_first n w1 w3.
Proof.
  intros H12 H23 Hn. destruct (H12 Hn) as [Hn2 Ht2]. destruct (H23 Hn2) as [Hn3 Ht3].
  split; [exact Hn3 | now rewrite Ht3].
Qed.

Lemma keeps_first_same_chat w w' : chat w' = chat w -> keeps_first n w w'.
Proof. intros Heq Hn. rewrite Heq. now split. Qed.

Lemma keeps_first_tick w : keeps_first n w (mkWorld (files w) (chat w) (log w) (S (tick w))).
Proof. now apply keeps_first_same_chat. Qed.

Lemma post_keeps (m : Message) : preserves (keeps_first n) (post m).
Proof.
  intros w Hn. cbn. rewrite length_app. split; [lia|]. now apply take_app_le.
Qed.

(** An edit at or beyond position [n] leaves the first [n] messages. *)
Lemma set_message_keeps (id : nat) (m : Message) :
  (n <= id)%nat -> preserves (keeps_first n) (set_message id m).
Proof.
  intros Hid w Hn. cbn. rewrite length_insert. split; [exact Hn|].
  now apply take_insert_ge.
Qed.

(** The identifier of a new message is beyond the messages that were
    there. *)
Lemma reply_text_keeps_bind (env : Env) {B} (text : string) (k : nat -> M B) :
  (forall id, (n <= id)%nat -> preserves (keeps_first n) (k id)) ->
  preserves (keeps_first n) (bind (reply_text env text) k).
Proof.
  intros Hk w Hn. unfold bind, reply_text, bind, consult, post, record, raise, ret. cbn.
  destruct (telegram env (tick w)); cbn; [now split|].
  set (w1 := mkWorld _ _ _ _).
  assert (Hn1 : (n <= length (chat w1))%nat) by (subst w1; cbn; rewrite length_app; lia).
  destruct (Hk (length (chat w)) Hn w1 Hn1) as [Hlen Htake].
  split; [exact Hlen|]. rewrite Htake. subst w1. cbn. now apply take_app_le.
Qed.

Lemma write_files_keeps (written : list (string * File)) :
  preserves (keeps_first n) (write_files written).
Proof. intros w. rewrite write_files_run. now apply keeps_first_same_chat. Qed.

Lemma scan_words_keeps (test : string -> bool) (action : string -> M unit)
    (words : list string) :
  (forall word, preserves (keeps_first n) (action word)) ->
  preserves (keeps_first n) (scan_words test action words).
Proof.
  intros Ha. induction words as [|x l IH]; cbn [scan_words].
  - intros w. apply keeps_first_refl.
  - destruct (test x); [apply Ha | exact IH].
Qed.
End KeepsFirst.

Ltac keeps_known n env :=
  first
    [ exact (keeps_first_refl n) | exact (keeps_first_trans n) | exact (keeps_first_tick n)
    | apply (reply_text_keeps_bind n env); intros ? ?
    | apply (set_message_keeps n); assumption
    | apply (post_keeps n)
    | apply (write_files_keeps n)
    | (intros ?; apply keeps_first_same_chat; reflexivity) ].

Section KeepsFirstHandlers.
Variable n : nat.
Variable env : Env.

Lemma download_from_youtube_keeps (url : option string)
    (metadata : option (gmap string pyval)) :
  preserves (keeps_first n) (download_from_youtube env url metadata).
Proof.
  unfold download_from_youtube, download_body, extract_info, add_id3_tags,
    add_id3_tags_body, eyed3_load_file, requests_get, save_tag, logger_error, edit_text,
    open_rb, reply_audio, os_remove.
  preserve using (keeps_known n env).
Qed.

Lemma search_keeps (query : string) (metadata : option (gmap string pyval)) :
  preserves (keeps_first n) (search_and_download_from_youtube env query metadata).
Proof.
  unfold search_and_download_from_youtube, extract_info, logger_error.
  preserve using (first [apply download_from_youtube_keeps | keeps_known n env]).
Qed.

Lemma get_spotify_info_keeps (url : string) :
  preserves (keeps_first n) (get_spotify_info env url).
Proof.
  unfold get_spotify_info, reply_photo, edit_text, logger_error.
  preserve using (first [apply search_keeps | keeps_known n env]).
Qed.

Lemma reply_notice_keeps (text : string) :
  preserves (keeps_first n) (reply_text env text;; ret tt).
Proof. preserve using (keeps_known n env). Qed.

Lemma route_keeps (update : Update) : preserves (keeps_first n) (route env update).
Proof.
  destruct update as [args|args|args|args|text|args|text]; cbn [route];
    try (intros w; apply keeps_first_refl).
  - apply reply_notice_keeps.
  - apply reply_notice_keeps.
  - unfold download_command. destruct args as [|url extra]; [apply reply_notice_keeps|].
    destruct (is_video_word url);
      [apply download_from_youtube_keeps | apply reply_notice_keeps].
  - unfold spotify_command. destruct args as [|url extra]; [apply reply_notice_keeps|].
    destruct (contains "spotify.com" url);
      [apply get_spotify_info_keeps | apply reply_notice_keeps].
  - unfold handle_message.
    destruct (contains "youtube.com" text || contains "youtu.be" text).
    + apply scan_words_keeps. intros word. apply download_from_youtube_keeps.
    + destruct (contains "spotify.com/track" text); [|apply reply_notice_keeps].
      apply scan_words_keeps. intros word. apply get_spotify_info_keeps.
Qed.
End KeepsFirstHandlers.

(** X15: a request never touches the messages that were in the chat before
    it: whatever the services do, the chat after any handler starts with
    the chat before it, message for message; a handler edits only status
    messages it created itself. *)
Theorem handlers_keep_earlier_messages (env : Env) (update : Update) (w : World) :
  take (length (chat w)) (chat (route env update w).2) = chat w.
Proof.
  destruct (route_keeps (length (chat w)) env update w (le_n _)) as [_ Htake].
  rewrite Htake. now apply take_ge.
Qed.

(** ** Runs of the search and of the catalog stage *)

Lemma reply_photo_ok (env : Env) photo caption w :
  telegram env (tick w) = None ->
  reply_photo env photo caption w
  = (Ok tt,
     mkWorld (files w) (chat w ++ [MPhoto photo caption])
       (log w ++ [EvPhoto (length (chat w)) photo caption]) (S (tick w))).
Proof. intros H. unfold reply_photo, bind, consult. cbn. now rewrite H. Qed.

(** What a [try] logged first stays first, whether its body returns or its
    handler runs. *)
Lemma try_except_log_extends {A} (body : M A) (handler : exn -> M A) (w : World)
    (first : list Event) :
  (exists evs, log (body w).2 = log w ++ first ++ evs) ->
  (forall e, preserves (grows (fun _ => True)) (handler e)) ->
  exists evs, log (try_except body handler w).2 = log w ++ first ++ evs.
Proof.
  intros (evs & Hlog) Hh. unfold try_except.
  destruct (body w) as [[a|e] w1]; cbn in Hlog |- *; [now exists evs|].
  destruct (Hh e w1) as (more & Hmore & _).
  exists (evs ++ more). now rewrite Hmore, Hlog, <- !app_assoc.
Qed.


Lemma catalog_handler_grows (env : Env) (status : nat) (e : exn) :
  preserves (grows (fun _ => True))
    (logger_error ("Error getting Spotify info: " +:+ e);;
     edit_text env status (msg_spotify_error e)).
Proof. unfold logger_error, edit_text, set_message. preserve. Qed.

Lemma search_starts (env : Env) (query : string) (metadata : option (gmap string pyval))
    (w : World) :
  exists evs,
    log (search_and_download_from_youtube env query metadata w).2
    = log w ++ [EvExtract (Some ("ytsearch:" +:+ query)) false] ++ evs.
Proof.
  unfold search_and_download_from_youtube, extract_info.
  rewrite try_except_record_bind.
  match goal with
  | |- context [try_except ?m ?h ?w2] =>
      assert (Hm : preserves (grows (fun _ => True)) (try_except m h));
        [|destruct (Hm w2) as (evs & Hlog & _)]
  end.
  { unfold download_from_youtube, download_body, extract_info, add_id3_tags,
      add_id3_tags_body, eyed3_load_file, requests_get, save_tag, logger_error,
      reply_text, edit_text, open_rb, reply_audio, os_remove, post, set_message.
    preserve using (apply write_files_grows; auto). }
  exists evs. rewrite Hlog. cbn. now rewrite <- !app_assoc.
Qed.



(** X17: when the search itself fails, the cause is logged and sent as a new
    message, not as an edit of a status message; nothing is downloaded and
    the handler returns normally. *)
Theorem search_failure_reported (env : Env) (query : string)
    (metadata : option (gmap string pyval)) (w : World) (e : exn) :
  ytdl env (tick w) (Some ("ytsearch:" +:+ query)) false = Raise e ->
  telegram env (S (tick w)) = None ->
  search_and_download_from_youtube env query metadata w
  = (Ok tt,
     mkWorld (files w) (chat w ++ [MText (msg_track_error e)])
       (log w ++ [EvExtract (Some ("ytsearch:" +:+ query)) false;
                  EvLogError ("Error searching/downloading from YouTube: " +:+ e);
                  EvReply (length (chat w)) (msg_track_error e)])
       (S (S (tick w)))).
Proof.
  intros Hsearch Hreply. unfold search_and_download_from_youtube.
  erewrite try_except_raise by (apply bind_raise, extract_info_search_raise; exact Hsearch).
  erewrite bind_ok by (unfold logger_error, record; reflexivity).
  erewrite bind_ok by (apply reply_text_ok; exact Hreply).
  cbn. now rewrite <- !app_assoc.
Qed.

Lemma search_failure_reported_witness :
  chat (search_and_download_from_youtube ytdl_down "Song Ann, Bob audio" None fresh_world).2
  = [MText (msg_track_error "Video unavailable")].
Proof.
  now rewrite (search_failure_reported ytdl_down "Song Ann, Bob audio" None fresh_world
                 "Video unavailable" eq_refl eq_refl).
Defined.

(** X18: when the catalog provider fails, the status message is edited to
    the error notice with the provider's cause; there is no search and no
    download, and the handler returns normally. *)
Theorem catalog_failure_reported (env : Env) (url track_id : string) (w : World) (e : exn) :
  let status := length (chat w) in
  telegram env (tick w) = None ->
  extract_track_id url = Some track_id ->
  spotify_track env (S (tick w)) track_id = Raise e ->
  telegram env (S (S (tick w))) = None ->
  get_spotify_info env url w
  = (Ok tt,
     mkWorld (files w)
       (<[status := MText (msg_spotify_error e)]> (chat w ++ [MText msg_fetching]))
       (log w ++ [EvReply status msg_fetching; EvTrack track_id;
                  EvLogError ("Error getting Spotify info: " +:+ e);
                  EvEdit status (msg_spotify_error e)])
       (S (S (S (tick w))))).
Proof.
  intros status Hstatus Hid Htrack Hedit. unfold extract_track_id in Hid.
  destruct (contains track_marker url) eqn:Hguard; [|discriminate].
  unfold get_spotify_info.
  rewrite (bind_ok _ _ _ _ _ (reply_text_ok env _ w Hstatus)).
  rewrite Hguard, Hid.
  erewrite try_except_bind_ok by reflexivity.
  erewrite try_except_bind_ok by (unfold record; reflexivity).
  erewrite try_except_bind_ok by (unfold consult; reflexivity).
  cbn [tick]. rewrite Htrack.
  erewrite try_except_raise by (apply bind_raise; reflexivity).
  erewrite bind_ok by (unfold logger_error, record; reflexivity).
  rewrite edit_text_ok by exact Hedit.
  cbn. now rewrite <- !app_assoc.
Qed.

Lemma catalog_failure_reported_witness :
  chat (get_spotify_info catalog_down "https://open.spotify.com/track/XYZ" fresh_world).2
  = [MText (msg_spotify_error "http status: 404")].
Proof.
  now rewrite (catalog_failure_reported catalog_down "https://open.spotify.com/track/XYZ"
                 "XYZ" fresh_world "http status: 404" eq_refl eq_refl eq_refl eq_refl).
Defined.

(** X19: a catalog URL without ["/track/"] calls no service: whatever the
    services would answer, the request only creates and edits text messages
    and leaves the download directory alone; when Telegram delivers, it is
    exactly the status message edited to the valid-track-URL notice. *)
Theorem not_a_track_url (env : Env) (url : string) (w : World) :
  contains track_marker url = false ->
  let r := get_spotify_info env url w in
  let status := length (chat w) in
  files r.2 = files w /\
  forallb is_notice (new_events w r.2) = true /\
  (telegram env (tick w) = None -> telegram env (S (tick w)) = None ->
   r = (Ok tt,
        mkWorld (files w)
          (<[status := MText msg_valid_track_url]> (chat w ++ [MText msg_fetching]))
          (log w ++ [EvReply status msg_fetching; EvEdit status msg_valid_track_url])
          (S (S (tick w))))).
Proof.
  intros Hguard r status. subst r. unfold new_events, get_spotify_info. rewrite Hguard.
  unfold try_except, reply_text, edit_text, logger_error, bind, consult, record, post,
    set_message, raise, ret.
  cbn.
  repeat (case_match; simplify_eq/=);
    repeat split; try reflexivity; try discriminate;
    rewrite <- ?app_assoc, ?drop_app_length, ?drop_all; reflexivity.
Qed.

Lemma not_a_track_url_witness :
  chat (get_spotify_info all_up "https://open.spotify.com/album/XYZ" fresh_world).2
  = [MText msg_valid_track_url].
Proof.
  destruct (not_a_track_url all_up "https://open.spotify.com/album/XYZ" fresh_world eq_refl)
    as (_ & _ & Hrun).
  now rewrite (Hrun eq_refl eq_refl).
Defined.

(** X20: what a catalog request does with the track it looked up. While
    Telegram delivers and line 218 gets a year out of the release date
    without [int] raising (or finds no dash in it), the information message
    with the formatted duration goes out as the caption of the cover when
    the track has a non-empty cover URL, and as an edit of the status
    message otherwise; the search that follows asks for the title, the
    artists joined by a comma and a space, and the word [audio]. *)
Theorem catalog_request_searches (env : Env) (url track_id : string) (w : World)
    (track_info : TrackInfo) (year : option Z) :
  let status := length (chat w) in
  let artist_names := String.concat ", " (tr_artists track_info) in
  let message :=
    info_message (tr_name track_info) artist_names (tr_album_name track_info)
      (tr_release_date track_info) (format_duration (tr_duration_ms track_info)) in
  let notice :=
    match head (tr_images track_info) with
    | Some cover => if String.eqb cover "" then EvEdit status message
                    else EvPhoto (S status) cover message
    | None => EvEdit status message
    end in
  (forall n, telegram env n = None) ->
  extract_track_id url = Some track_id ->
  spotify_track env (S (tick w)) track_id = Ok track_info ->
  release_year env (tr_release_date track_info) = Ok year ->
  exists evs,
    new_events w (get_spotify_info env url w).2
    = [EvReply status msg_fetching; EvTrack track_id; notice;
       EvExtract
         (Some ("ytsearch:" +:+ tr_name track_info +:+ " " +:+ artist_names +:+ " audio"))
         false] ++ evs.
Proof.
  intros status artist_names message notice Hup Hid Htrack Hyear.
  unfold extract_track_id in Hid.
  destruct (contains track_marker url) eqn:Hguard; [|discriminate].
  unfold get_spotify_info.
  rewrite (bind_ok _ _ _ _ _ (reply_text_ok env _ w (Hup _))).
  rewrite Hguard, Hid.
  erewrite try_except_bind_ok by reflexivity.
  erewrite try_except_bind_ok by (unfold record; reflexivity).
  erewrite try_except_bind_ok by (unfold consult; reflexivity).
  cbn [tick]. rewrite Htrack.
  erewrite try_except_bind_ok by reflexivity.
  rewrite Hyear.
  erewrite try_except_bind_ok by reflexivity.
  fold artist_names. fold message.
  assert (Hnotice : exists w2 : World,
             (match head (tr_images track_info) with
              | Some u => if String.eqb u "" then edit_text env status message
                          else reply_photo env u message
              | None => edit_text env status message
              end)
               (mkWorld (files w) (chat w ++ [MText msg_fetching])
                  ((log w ++ [EvReply status msg_fetching]) ++ [EvTrack track_id])
                  (S (S (tick w))))
             = (Ok tt, w2) /\
             log w2 = log w ++ [EvReply status msg_fetching; EvTrack track_id; notice]).
  { subst notice. destruct (head (tr_images track_info)) as [cover|];
      [destruct (String.eqb cover "")|].
    - rewrite edit_text_ok by apply Hup. eexists. split; [reflexivity|].
      cbn. now rewrite <- !app_assoc.
    - rewrite reply_photo_ok by apply Hup. eexists. split; [reflexivity|].
      cbn. rewrite length_app. cbn [length].
      replace (length (chat w) + 1)%nat with (S status) by (unfold status; lia).
      now rewrite <- !app_assoc.
    - rewrite edit_text_ok by apply Hup. eexists. split; [reflexivity|].
      cbn. now rewrite <- !app_assoc. }
  destruct Hnotice as (w2 & Hrun & Hlog2).
  erewrite try_except_bind_ok by exact Hrun.
  destruct (try_except_log_extends
              (search_and_download_from_youtube env
                 (tr_name track_info +:+ " " +:+ artist_names +:+ " audio")
                 (Some (build_metadata (tr_name track_info) artist_names
                          (tr_album_name track_info)
                          (String.concat ", " (tr_album_artists track_info))
                          (head (tr_images track_info))
                          (default 1 (tr_track_number track_info)) year)))
              (fun e =>
                 logger_error ("Error getting Spotify info: " +:+ e);;
                 edit_text env status (msg_spotify_error e))
              w2 _ (search_starts env _ _ w2) (catalog_handler_grows env status))
    as (evs & Hlog).
  exists evs. unfold new_events. fold status. rewrite Hlog, Hlog2.
  now rewrite <- !app_assoc, drop_app_length.
Qed.

Lemma catalog_request_searches_witness :
  exists evs,
    new_events fresh_world
      (get_spotify_info all_up "https://open.spotify.com/track/XYZ" fresh_world).2
    = [EvReply 0 msg_fetching; EvTrack "XYZ";
       EvPhoto 1 "https://i.scdn.co/image/cover"
         (info_message "Song" "Ann, Bob" "Album" "2021-05-14" "3:05");
       EvExtract (Some "ytsearch:Song Ann, Bob audio") false] ++ evs.
Proof.
  exact (catalog_request_searches all_up "https://open.spotify.com/track/XYZ" "XYZ"
           fresh_world sample_track (Some 2021) (fun _ => eq_refl) eq_refl eq_refl eq_refl).
Defined.

(** ** More on the catalog request *)

(** X21: when every search comes back empty, a catalog request downloads
    nothing from its first message to its last: whatever the URL and the
    other services, no downloading call is made, no file is written, and
    the download directory is as it was. *)
Theorem catalog_request_without_candidates (env : Env) (url : string) (w : World) :
  (forall n query a,
     ytdl env n query false = Ok a -> default [] (yt_entries (yt_info a)) = []) ->
  files (get_spotify_info env url w).2 = files w /\
  forallb (fun ev => negb (is_retrieval ev)) (new_events w (get_spotify_info env url w).2)
  = true.
Proof.
  intros Hempty.
  destruct (catalog_request_no_retrieval env Hempty url w) as [Hfiles Hevents].
  split; [exact Hfiles|]. apply forallb_forall. intros ev Hin.
  rewrite Forall_forall in Hevents. rewrite (Hevents ev); [reflexivity|].
  now apply list_elem_of_In.
Qed.

Lemma catalog_request_without_candidates_witness :
  files (get_spotify_info nothing_found "https://open.spotify.com/track/XYZ" fresh_world).2
  = files fresh_world.
Proof.
  refine (proj1 (catalog_request_without_candidates nothing_found
                   "https://open.spotify.com/track/XYZ" fresh_world _)).
  intros n query a. cbn. intros [= <-]. reflexivity.
Defined.

(** X22: [/spotify] reads only its first argument: without arguments it
    asks for a URL; a first argument without ["spotify.com"] gets the
    validation error and the catalog is not asked; otherwise the catalog
    request is started on the first argument, whatever follows it. *)
Theorem spotify_command_first_argument (env : Env) (args : list string) (w : World) :
  telegram env (tick w) = None ->
  let r := spotify_command env args w in
  let reply text :=
    (Ok tt, mkWorld (files w) (chat w ++ [MText text])
              (log w ++ [EvReply (length (chat w)) text]) (S (tick w))) in
  match args with
  | [] => r = reply msg_need_spotify_url
  | url :: extra =>
      if contains "spotify.com" url
      then r = get_spotify_info env url w /\
           exists evs,
             new_events w r.2 = [EvReply (length (chat w)) msg_fetching] ++ evs
      else r = reply msg_invalid_spotify_url
  end.
Proof.
  intros Hup r reply. subst r reply.
  destruct args as [|url extra]; cbn [spotify_command].
  - erewrite bind_ok by (apply reply_text_ok, Hup). reflexivity.
  - destruct (contains "spotify.com" url).
    + split; [reflexivity|]. unfold get_spotify_info.
      rewrite (bind_ok _ _ _ _ _ (reply_text_ok env _ w Hup)).
      match goal with
      | |- context [try_except ?m ?h ?w1] =>
          assert (Hm : preserves (grows (fun _ => True)) (try_except m h));
            [|destruct (Hm w1) as (evs & Hlog & _)]
      end.
      { unfold reply_photo, edit_text, logger_error, post, set_message.
        preserve using (apply search_and_download_grows). }
      exists evs. unfold new_events. rewrite Hlog. cbn [log].
      now rewrite <- !app_assoc, drop_app_length.
    + erewrite bind_ok by (apply reply_text_ok, Hup). reflexivity.
Qed.

Lemma spotify_command_first_argument_witness :
  spotify_command all_up ["https://example.org/song"; "https://open.spotify.com/track/XYZ"]
    fresh_world
  = (Ok tt, mkWorld ∅ [MText msg_invalid_spotify_url] [EvReply 0 msg_invalid_spotify_url] 1).
Proof.
  exact (spotify_command_first_argument all_up
           ["https://example.org/song"; "https://open.spotify.com/track/XYZ"] fresh_world
           eq_refl).
Defined.



Lemma add_id3_tags_frame_witness :
  let r := add_id3_tags eyed3_blind "downloads/Song.mp3" sample_metadata one_file_world in
  r.1 = Ok tt /\
  chat r.2 = chat one_file_world /\
  files r.2 !! "downloads/Other.mp3" = files one_file_world !! "downloads/Other.mp3".
Proof.
  destruct (add_id3_tags_frame eyed3_blind "downloads/Song.mp3" sample_metadata
              one_file_world "downloads/Other.mp3")
    as (Hret & Hchat & _ & Hother & _).
  split; [exact Hret|]. split; [exact Hchat|]. apply Hother. discriminate.
Defined.
